(** * Verification of the vuln-detection VS Code extension

    Shallow embedding of the extension glue ([extension.js], and the newer
    revision of it whose [getResultsHtml] renders a [results] array) and of
    the detector contract that the extension relies on. *)

From Stdlib Require Import String Ascii List ZArith Bool Lia.
From Stdlib Require Import Numbers.DecimalString Sorting.Sorted Sorting.Permutation.
Import ListNotations.
Open Scope string_scope.

(** ** JavaScript values, as far as the glue code observes them *)
Module Js.

(** The values a property lookup or a template interpolation can meet. *)
Inductive jsval : Type :=
  | JUndefined
  | JNull
  | JBool (b : bool)
  | JNum (z : Z)
  | JStr (s : string)
  | JFun (name : string)
  | JObj (tag : string).

(** ToBoolean. *)
Definition truthy (v : jsval) : bool :=
  match v with
  | JUndefined | JNull => false
  | JBool b => b
  | JNum z => negb (Z.eqb z 0)
  | JStr s => negb (String.eqb s "")
  | JFun _ | JObj _ => true
  end.

(** Decimal rendering of an integer-valued number. *)
Definition z_str (z : Z) : string := NilEmpty.string_of_int (Z.to_int z).
Definition nat_str (n : nat) : string := NilEmpty.string_of_uint (Nat.to_uint n).

(** ToString, i.e. [String(v)] and template-literal interpolation. *)
Definition to_str (v : jsval) : string :=
  match v with
  | JUndefined => "undefined"
  | JNull => "null"
  | JBool true => "true"
  | JBool false => "false"
  | JNum z => z_str z
  | JStr s => s
  | JFun n => "function " ++ n ++ "() { [native code] }"
  | JObj _ => "[object Object]"
  end.

(** The properties every plain object literal inherits from
    [Object.prototype]: a lookup [obj[k]] that misses the own properties
    falls through to these. *)
Definition object_prototype_lookup (k : string) : jsval :=
  if String.eqb k "constructor" then JFun "Object"
  else if String.eqb k "__proto__" then JObj "Object.prototype"
  else if existsb (String.eqb k)
    ["__defineGetter__"; "__defineSetter__"; "hasOwnProperty";
     "__lookupGetter__"; "__lookupSetter__"; "isPrototypeOf";
     "propertyIsEnumerable"; "toString"; "valueOf"; "toLocaleString"]
  then JFun k
  else JUndefined.

(** [obj[k]] on an object literal whose own properties are [own]. *)
Fixpoint lookup (own : list (string * jsval)) (k : string) : jsval :=
  match own with
  | [] => object_prototype_lookup k
  | (k', v) :: rest => if String.eqb k k' then v else lookup rest k
  end.

(** [a || b] on values. *)
Definition or_else (a b : jsval) : jsval := if truthy a then a else b.

End Js.

(** ** The results panel: [getResultsHtml] (revision rendering [results]) *)
Module Html.
Import Js.

(** The double quote character. *)
Definition dq : ascii := "034"%char.

(** The static text of the template literals below is written with a
    backquote wherever the source has a double quote; [lit] puts the double
    quotes back (a JavaScript template literal cannot hold an unescaped
    backquote, so no backquote of the source is lost). *)
Fixpoint lit (s : string) : string :=
  match s with
  | EmptyString => EmptyString
  | String c t => String (if Ascii.eqb c "`"%char then dq else c) (lit t)
  end.

(** [str.replace(/c/g, r)]. *)
Fixpoint replace_all (c : ascii) (r : string) (s : string) : string :=
  match s with
  | EmptyString => EmptyString
  | String d t =>
      if Ascii.eqb d c then r ++ replace_all c r t
      else String d (replace_all c r t)
  end.

(** [escapeHtml], the arrow function inside [getResultsHtml]. *)
Definition escapeHtml (s : string) : string :=
  replace_all "'"%char "&#039;"
    (replace_all dq "&quot;"
      (replace_all ">"%char "&gt;"
        (replace_all "<"%char "&lt;"
          (replace_all "&"%char "&amp;" s)))).

(** One element of the [results] array of a detector response. *)
Record finding : Type := mkFinding {
  vulnerability : string;
  severity : string;
  lines : option (list Z);   (* [None]: field absent or null *)
  explanation : string;
  patch : string
}.

(** A detector response; [None]: no (or a null) [results] field. *)
Record response : Type := mkResponse {
  language : string;
  results : option (list finding)
}.

(** [severityColors], an object literal. *)
Definition severityColors : list (string * jsval) :=
  [("Critical", JStr "#dc2626"); ("High", JStr "#ea580c");
   ("Medium", JStr "#ca8a04"); ("Low", JStr "#16a34a");
   ("Safe", JStr "#22c55e"); ("N/A", JStr "#6b7280")].

(** [severityColors[vuln.severity] || '#6b7280'], interpolated. *)
Definition severityColor (sev : string) : string :=
  to_str (or_else (lookup severityColors sev) (JStr "#6b7280")).

(** [const results = result.results || []]. *)
Definition results_of (r : response) : list finding :=
  match results r with Some l => l | None => [] end.

(** [const hasVulnerabilities = vulnCount > 0 && results[0].vulnerability !== 'Error'] *)
Definition hasVulnerabilities (r : response) : bool :=
  match results_of r with
  | [] => false
  | v :: _ => negb (String.eqb (vulnerability v) "Error")
  end.

(** [const isError = vulnCount > 0 && results[0].vulnerability === 'Error'] *)
Definition isError (r : response) : bool :=
  match results_of r with
  | [] => false
  | v :: _ => String.eqb (vulnerability v) "Error"
  end.

(** The header: [statusIcon], [statusText] and [headerColor]. *)
Definition statusIcon (r : response) : string :=
  if isError r then "‚ùå"
  else if hasVulnerabilities r then "‚ö†Ô∏è"
  else "‚úÖ".

Definition statusText (r : response) : string :=
  let vulnCount := length (results_of r) in
  if isError r then "Analysis Error"
  else if hasVulnerabilities r then
    nat_str vulnCount ++ " " ++
    (if Nat.eqb vulnCount 1 then "vulnerability" else "vulnerabilities") ++
    " detected"
  else "No vulnerabilities detected".

Definition headerColor (r : response) : string :=
  if isError r then "#6b7280"
  else if hasVulnerabilities r then "#ea580c"
  else "#22c55e".

(** [lines.join(', ')]. *)
Fixpoint join (l : list Z) : string :=
  match l with
  | [] => ""
  | [z] => z_str z
  | z :: t => z_str z ++ ", " ++ join t
  end.

(** [lineText] of a finding. *)
Definition lineText (v : finding) : string :=
  let ls := match lines v with Some l => l | None => [] end in
  match ls with
  | [] => ""
  | [z] => "Line " ++ z_str z
  | _ => "Lines " ++ join ls
  end.

Definition card_0 : string := lit "
            <div class=`vuln-section` style=`margin-bottom: 24px; padding-bottom: 24px; border-bottom: 1px solid var(--vscode-panel-border);`>
                ".

Definition card_1 : string := lit "
                
                <div class=`card`>
                    <div class=`card-title`>Vulnerability</div>
                    <div class=`vulnerability-name` style=`color: ".

Definition card_2 : string := lit ";`>".

Definition card_3 : string := lit "</div>
                </div>

                <div class=`card`>
                    <div class=`card-title`>Location & Severity</div>
                    <div style=`display: flex; gap: 8px; align-items: center; flex-wrap: wrap;`>
                        ".

Definition card_4 : string := lit "
                        <span class=`severity-badge` style=`background: ".

Definition card_5 : string := lit "22; color: ".

Definition card_6 : string := lit "; border: 1px solid ".

Definition card_7 : string := lit "44;`>".

Definition card_8 : string := lit "</span>
                    </div>
                </div>

                <div class=`card`>
                    <div class=`card-title`>Explanation</div>
                    <p class=`explanation`>".

Definition card_9 : string := lit "</p>
                </div>

                <div class=`card`>
                    <div class=`card-title`>Recommended Fix</div>
                    <pre class=`patch-code`>".

Definition card_10 : string := lit "</pre>
                </div>
            </div>".

Definition issue_0 : string := lit "<div class=`vuln-number` style=`font-size: 11px; color: var(--vscode-descriptionForeground); margin-bottom: 8px;`>Issue ".

Definition issue_1 : string := lit " of ".

Definition issue_2 : string := lit "</div>".

Definition loc_0 : string := lit "<span class=`location-badge` style=`display: inline-flex; align-items: center; gap: 4px; padding: 4px 10px; border-radius: 4px; font-size: 12px; font-weight: 500; background: #3b82f622; color: #3b82f6; border: 1px solid #3b82f644;`>
                            <span style=`font-size: 14px;`>üìç</span> ".

Definition loc_1 : string := lit "
                        </span>".

Definition safe_0 : string := lit "
        <div class=`safe-message` style=`text-align: center; padding: 40px 20px;`>
            <div style=`font-size: 48px; margin-bottom: 16px;`>‚úÖ</div>
            <h2 style=`font-size: 18px; font-weight: 600; margin-bottom: 12px; color: #22c55e;`>Code Appears Safe</h2>
            <p style=`color: var(--vscode-descriptionForeground); max-width: 400px; margin: 0 auto;`>
                No common vulnerability patterns were detected in this code snippet. 
                Note: This is a pattern-based analysis and may not catch all security issues. 
                Always follow secure coding practices and conduct thorough security reviews.
            </p>
        </div>".

Definition page_0 : string := lit "<!DOCTYPE html>
<html lang=`en`>
<head>
    <meta charset=`UTF-8`>
    <meta name=`viewport` content=`width=device-width, initial-scale=1.0`>
    <title>Security Analysis Results</title>
    <style>
        * {
            margin: 0;
            padding: 0;
            box-sizing: border-box;
        }
        body {
            font-family: -apple-system, BlinkMacSystemFont, 'Segoe UI', Roboto, Oxygen, Ubuntu, sans-serif;
            padding: 20px;
            background: var(--vscode-editor-background);
            color: var(--vscode-editor-foreground);
            line-height: 1.6;
        }
        .header {
            display: flex;
            align-items: center;
            gap: 12px;
            margin-bottom: 24px;
            padding-bottom: 16px;
            border-bottom: 1px solid var(--vscode-panel-border);
        }
        .header-icon {
            font-size: 32px;
        }
        .header-text h1 {
            font-size: 18px;
            font-weight: 600;
        }
        .header-text .status {
            font-size: 14px;
            color: ".

Definition page_1 : string := lit ";
            font-weight: 500;
        }
        .card {
            background: var(--vscode-input-background);
            border: 1px solid var(--vscode-panel-border);
            border-radius: 8px;
            padding: 16px;
            margin-bottom: 12px;
        }
        .card-title {
            font-size: 12px;
            text-transform: uppercase;
            letter-spacing: 0.5px;
            color: var(--vscode-descriptionForeground);
            margin-bottom: 8px;
        }
        .vulnerability-name {
            font-size: 16px;
            font-weight: 600;
        }
        .severity-badge {
            display: inline-block;
            padding: 4px 12px;
            border-radius: 4px;
            font-size: 12px;
            font-weight: 600;
        }
        .explanation {
            font-size: 14px;
            line-height: 1.7;
        }
        .patch-code {
            background: var(--vscode-textCodeBlock-background);
            border: 1px solid var(--vscode-panel-border);
            border-radius: 4px;
            padding: 12px;
            font-family: 'Consolas', 'Monaco', 'Courier New', monospace;
            font-size: 13px;
            white-space: pre-wrap;
            overflow-x: auto;
        }
        .footer {
            margin-top: 24px;
            padding-top: 16px;
            border-top: 1px solid var(--vscode-panel-border);
            font-size: 12px;
            color: var(--vscode-descriptionForeground);
        }
    </style>
</head>
<body>
    <div class=`header`>
        <span class=`header-icon`>".

Definition page_2 : string := lit "</span>
        <div class=`header-text`>
            <h1>Security Analysis Results</h1>
            <div class=`status`>".

Definition page_3 : string := lit "</div>
        </div>
    </div>

    ".

Definition page_4 : string := lit "

    <div class=`footer`>
        <p>üîí AI Code Vulnerability Detector ‚Ä¢ Pattern-based security analysis</p>
        <p>Note: This tool uses pattern matching and may not detect all vulnerabilities. Always conduct thorough security reviews.</p>
    </div>
</body>
</html>".

(** The card appended to [cardsHtml] for the finding [vuln] at position
    [index] of a [results] array of length [vulnCount]. *)
Definition card (vuln : finding) (index vulnCount : nat) : string :=
  let sc := severityColor (severity vuln) in
  let lt := lineText vuln in
  card_0 ++
  (if Nat.ltb 1 vulnCount
   then issue_0 ++ nat_str (index + 1) ++ issue_1 ++ nat_str vulnCount ++ issue_2
   else "") ++
  card_1 ++ sc ++ card_2 ++ escapeHtml (vulnerability vuln) ++ card_3 ++
  (if negb (String.eqb lt "") then loc_0 ++ escapeHtml lt ++ loc_1 else "") ++
  card_4 ++ sc ++ card_5 ++ sc ++ card_6 ++ sc ++ card_7 ++
  escapeHtml (severity vuln) ++ card_8 ++ escapeHtml (explanation vuln) ++
  card_9 ++ escapeHtml (patch vuln) ++ card_10.

(** [results.forEach((vuln, index) => { cardsHtml += ... })]. *)
Fixpoint cards (index vulnCount : nat) (vs : list finding) : string :=
  match vs with
  | [] => ""
  | v :: t => card v index vulnCount ++ cards (S index) vulnCount t
  end.

Definition cardsHtml (r : response) : string :=
  if hasVulnerabilities r || isError r
  then cards 0 (length (results_of r)) (results_of r)
  else safe_0.

Definition getResultsHtml (r : response) : string :=
  page_0 ++ headerColor r ++ page_1 ++ statusIcon r ++ page_2 ++
  statusText r ++ page_3 ++ cardsHtml r ++ page_4.

End Html.

(** ** The results panel of the older revision ([src/extension.js]), which
    renders a single flat [result] object *)
Module OldHtml.
Import Js Html.

(** The parsed detector response as the older [getResultsHtml] reads it:
    the four top-level fields it interpolates ([JUndefined] when absent). *)
Record flat_result : Type := mkFlat {
  f_vulnerability : jsval;
  f_severity : jsval;
  f_explanation : jsval;
  f_patch : jsval
}.

(** Strict equality [v === s] with a string literal [s]. *)
Definition strict_eq_str (v : jsval) (s : string) : bool :=
  match v with JStr t => String.eqb t s | _ => false end.

(** [severityColors[result.severity] || '#6b7280']; the property key is
    [String(result.severity)]. *)
Definition oldSeverityColor (r : flat_result) : string :=
  severityColor (to_str (f_severity r)).

(** [result.vulnerability !== 'None Detected' && result.vulnerability !== 'Error'] *)
Definition isVulnerable (r : flat_result) : bool :=
  negb (strict_eq_str (f_vulnerability r) "None Detected") &&
  negb (strict_eq_str (f_vulnerability r) "Error").

Definition oldStatusIcon (r : flat_result) : string :=
  if isVulnerable r then "⚠️"
  else if strict_eq_str (f_vulnerability r) "Error" then "❌" else "✅".

Definition oldStatusText (r : flat_result) : string :=
  if isVulnerable r then "Vulnerability Detected"
  else if strict_eq_str (f_vulnerability r) "Error" then "Analysis Error"
  else "Code Appears Safe".

(** [escapeHtml(x)] on a field: [String(str)] first. *)
Definition escField (v : jsval) : string := escapeHtml (to_str v).

(** The static text of the returned template literal, between its
    interpolations (double quotes written as backquotes, see [lit]). *)
Definition old_0 : string := lit "<!DOCTYPE html>
<html lang=`en`>
<head>
    <meta charset=`UTF-8`>
    <meta name=`viewport` content=`width=device-width, initial-scale=1.0`>
    <title>Security Analysis Results</title>
    <style>
        * {
            margin: 0;
            padding: 0;
            box-sizing: border-box;
        }
        body {
            font-family: -apple-system, BlinkMacSystemFont, 'Segoe UI', Roboto, Oxygen, Ubuntu, sans-serif;
            padding: 20px;
            background: var(--vscode-editor-background);
            color: var(--vscode-editor-foreground);
            line-height: 1.6;
        }
        .header {
            display: flex;
            align-items: center;
            gap: 12px;
            margin-bottom: 24px;
            padding-bottom: 16px;
            border-bottom: 1px solid var(--vscode-panel-border);
        }
        .header-icon {
            font-size: 32px;
        }
        .header-text h1 {
            font-size: 18px;
            font-weight: 600;
        }
        .header-text .status {
            font-size: 14px;
            color: var(--vscode-descriptionForeground);
        }
        .card {
            background: var(--vscode-input-background);
            border: 1px solid var(--vscode-panel-border);
            border-radius: 8px;
            padding: 16px;
            margin-bottom: 16px;
        }
        .card-title {
            font-size: 12px;
            text-transform: uppercase;
            letter-spacing: 0.5px;
            color: var(--vscode-descriptionForeground);
            margin-bottom: 8px;
        }
        .vulnerability-name {
            font-size: 16px;
            font-weight: 600;
            color: ".

Definition old_1 : string := lit ";
        }
        .severity-badge {
            display: inline-block;
            padding: 4px 12px;
            border-radius: 4px;
            font-size: 12px;
            font-weight: 600;
            background: ".

Definition old_2 : string := lit "22;
            color: ".

Definition old_3 : string := lit ";
            border: 1px solid ".

Definition old_4 : string := lit "44;
        }
        .explanation {
            font-size: 14px;
            line-height: 1.7;
        }
        .patch-code {
            background: var(--vscode-textCodeBlock-background);
            border: 1px solid var(--vscode-panel-border);
            border-radius: 4px;
            padding: 12px;
            font-family: 'Consolas', 'Monaco', 'Courier New', monospace;
            font-size: 13px;
            white-space: pre-wrap;
            overflow-x: auto;
        }
        .footer {
            margin-top: 24px;
            padding-top: 16px;
            border-top: 1px solid var(--vscode-panel-border);
            font-size: 12px;
            color: var(--vscode-descriptionForeground);
        }
    </style>
</head>
<body>
    <div class=`header`>
        <span class=`header-icon`>".

Definition old_5 : string := lit "</span>
        <div class=`header-text`>
            <h1>Security Analysis Results</h1>
            <div class=`status`>".

Definition old_6 : string := lit "</div>
        </div>
    </div>

    <div class=`card`>
        <div class=`card-title`>Vulnerability</div>
        <div class=`vulnerability-name`>".

Definition old_7 : string := lit "</div>
    </div>

    <div class=`card`>
        <div class=`card-title`>Severity Level</div>
        <span class=`severity-badge`>".

Definition old_8 : string := lit "</span>
    </div>

    <div class=`card`>
        <div class=`card-title`>Explanation</div>
        <p class=`explanation`>".

Definition old_9 : string := lit "</p>
    </div>

    <div class=`card`>
        <div class=`card-title`>Recommended Fix</div>
        <pre class=`patch-code`>".

Definition old_10 : string := lit "</pre>
    </div>

    <div class=`footer`>
        <p>🔒 AI Code Vulnerability Detector • Pattern-based security analysis</p>
        <p>Note: This tool uses pattern matching and may not detect all vulnerabilities. Always conduct thorough security reviews.</p>
    </div>
</body>
</html>".

(** The older [getResultsHtml(result)]. *)
Definition oldGetResultsHtml (r : flat_result) : string :=
  old_0 ++ oldSeverityColor r ++ old_1 ++ oldSeverityColor r ++ old_2 ++
  oldSeverityColor r ++ old_3 ++ oldSeverityColor r ++ old_4 ++
  oldStatusIcon r ++ old_5 ++ oldStatusText r ++ old_6 ++
  escField (f_vulnerability r) ++ old_7 ++ escField (f_severity r) ++ old_8 ++
  escField (f_explanation r) ++ old_9 ++ escField (f_patch r) ++ old_10.

End OldHtml.

(** ** The detector launcher: [analyzeCode] and [tryPythonCommand] *)
Module Launcher.
Import Js.

(** [JSON.stringify] on the values the launcher serialises. *)
#[local] Set Warnings "-register-all".
Inductive jvalue : Type :=
  | JVStr (s : string)
  | JVObj (fields : list (string * jvalue)).

Definition hex_digit (n : nat) : ascii :=
  ascii_of_nat (if Nat.ltb n 10 then 48 + n else 87 + n).

(** QuoteJSONString on one character. *)
Definition json_escape_char (c : ascii) : string :=
  let n := nat_of_ascii c in
  if Ascii.eqb c Html.dq then String "\"%char (String Html.dq EmptyString)
  else if Ascii.eqb c "\"%char then "\\"
  else if Nat.eqb n 8 then "\b"
  else if Nat.eqb n 9 then "\t"
  else if Nat.eqb n 10 then "\n"
  else if Nat.eqb n 12 then "\f"
  else if Nat.eqb n 13 then "\r"
  else if Nat.ltb n 32 then
    "\u00" ++ String (hex_digit (n / 16)) (String (hex_digit (n mod 16)) EmptyString)
  else String c EmptyString.

Fixpoint json_escape (s : string) : string :=
  match s with
  | EmptyString => EmptyString
  | String c t => json_escape_char c ++ json_escape t
  end.

Definition json_quote (s : string) : string :=
  String Html.dq (json_escape s ++ String Html.dq EmptyString).

Fixpoint stringify (v : jvalue) : string :=
  match v with
  | JVStr s => json_quote s
  | JVObj fs =>
      let fix fields (l : list (string * jvalue)) : string :=
        match l with
        | [] => ""
        | [(k, x)] => json_quote k ++ ":" ++ stringify x
        | (k, x) :: t => json_quote k ++ ":" ++ stringify x ++ "," ++ fields t
        end in
      "{" ++ fields fs ++ "}"
  end.

(** What a spawned child process reports to the listeners the launcher
    registers: a [data] chunk on stdout or stderr, an ['error'] event, or
    the ['close'] event with its exit code ([None]: [null], the process was
    killed by a signal).  The events of one process come in order. *)
Inductive event : Type :=
  | EvStdout (chunk : string)
  | EvStderr (chunk : string)
  | EvError
  | EvClose (exitCode : option Z).

(** Operations on a child's stdin. *)
Inductive stdin_op : Type :=
  | StdinWrite (s : string)
  | StdinEnd.

Section Launch.
Context {json : Type}.
(** [JSON.parse]; [None]: it throws. *)
Context (json_parse : string -> option json).
(** The events the child spawned for a command will emit. *)
Context (env : string -> list event).
(** The arguments the recursion of [tryPythonCommand] carries unchanged. *)
Context (commands : list string) (detectorPath code language : string).

(** How the promise of [analyzeCode] is settled. *)
Inductive outcome : Type :=
  | Resolved (result : json)
  | Rejected (message : string).

(** A spawned child: its command, the index it was spawned for, the events
    it has still to emit, the [stdout] and [stderr] accumulated by its
    listeners, and what was done on its stdin. *)
Record proc : Type := mkProc {
  p_cmd : string;
  p_args : list string;
  p_index : nat;
  p_events : list event;
  p_stdout : string;
  p_stderr : string;
  p_stdin : list stdin_op
}.

(** The promise (settled at most once) and the children spawned so far. *)
Record state : Type := mkState {
  settled : option outcome;
  procs : list proc
}.

(** [resolve]/[reject]: only the first call settles the promise. *)
Definition settle (o : outcome) (st : state) : state :=
  match settled st with
  | None => mkState (Some o) (procs st)
  | Some _ => st
  end.

Definition notInstalled : string :=
  "Python is not installed or not in PATH. Please install Python 3.x.".

(** [const input = JSON.stringify({ code, language })]. *)
Definition input : string :=
  stringify (JVObj [("code", JVStr code); ("language", JVStr language)]).

(** [tryPythonCommand(commands, index, ...)]: reject when the list is
    exhausted, otherwise spawn [commands[index]], register the listeners
    (the [stdout] and [stderr] buffers start empty), write the input and
    end stdin. *)
Definition tryPythonCommand (index : nat) (st : state) : state :=
  if Nat.leb (length commands) index then settle (Rejected notInstalled) st
  else
    let pythonCmd := nth index commands "" in
    mkState (settled st)
      (procs st ++ [mkProc pythonCmd [detectorPath] index (env pythonCmd) "" ""
                      [StdinWrite input; StdinEnd]]).

(** The ['close'] listener. *)
Definition close_action (stdout stderr : string) (exitCode : option Z) : outcome :=
  match exitCode with
  | Some 0%Z =>
      match json_parse stdout with
      | Some result => Resolved result
      | None => Rejected ("Failed to parse detector output: " ++ stdout)
      end
  | _ =>
      Rejected ("Detector exited with code " ++
                to_str (match exitCode with Some z => JNum z | None => JNull end) ++
                ": " ++ stderr)
  end.

Fixpoint set_nth {A} (k : nat) (x : A) (l : list A) : list A :=
  match l, k with
  | [], _ => []
  | _ :: t, 0 => x :: t
  | y :: t, S k' => y :: set_nth k' x t
  end.

Definition set_proc (k : nat) (p : proc) (st : state) : state :=
  mkState (settled st) (set_nth k p (procs st)).

Definition with_events (p : proc) (evs : list event) (out err : string) : proc :=
  mkProc (p_cmd p) (p_args p) (p_index p) evs out err (p_stdin p).

(** Child [k] (currently [p]) emits [e], [rest] being its later events;
    the listener registered for [e] runs. *)
Definition handle (k : nat) (p : proc) (e : event) (rest : list event)
    (st : state) : state :=
  match e with
  | EvStdout chunk => set_proc k (with_events p rest (p_stdout p ++ chunk) (p_stderr p)) st
  | EvStderr chunk => set_proc k (with_events p rest (p_stdout p) (p_stderr p ++ chunk)) st
  | EvError =>
      tryPythonCommand (p_index p + 1)
        (set_proc k (with_events p rest (p_stdout p) (p_stderr p)) st)
  | EvClose c =>
      settle (close_action (p_stdout p) (p_stderr p) c)
        (set_proc k (with_events p rest (p_stdout p) (p_stderr p)) st)
  end.

(** The event loop: any child with a pending event may emit it next. *)
Inductive step : state -> state -> Prop :=
  | step_emit st k p e rest :
      nth_error (procs st) k = Some p ->
      p_events p = e :: rest ->
      step st (handle k p e rest st).

Inductive star : state -> state -> Prop :=
  | star_refl st : star st st
  | star_step st st' st'' : step st st' -> star st' st'' -> star st st''.

(** No child has an event left to emit. *)
Definition terminal (st : state) : Prop :=
  forall k p, nth_error (procs st) k = Some p -> p_events p = [].

(** The first child with a pending event. *)
Fixpoint next_event (k : nat) (ps : list proc) : option (nat * proc) :=
  match ps with
  | [] => None
  | p :: t =>
      match p_events p with
      | [] => next_event (S k) t
      | _ :: _ => Some (k, p)
      end
  end.

(** One schedule of the event loop: always the earliest spawned child with
    a pending event. *)
Fixpoint run (fuel : nat) (st : state) : state :=
  match fuel with
  | 0 => st
  | S n =>
      match next_event 0 (procs st) with
      | None => st
      | Some (k, p) =>
          match p_events p with
          | [] => st
          | e :: rest => run n (handle k p e rest st)
          end
      end
  end.

(** The first child whose next event is an ['error']. *)
Fixpoint next_error (k : nat) (ps : list proc) : option (nat * proc) :=
  match ps with
  | [] => None
  | p :: t =>
      match p_events p with
      | EvError :: _ => Some (k, p)
      | _ => next_error (S k) t
      end
  end.

(** The schedule Node follows for failed spawns: [ChildProcess] reports a
    spawn failure (ENOENT) from [process.nextTick], and the tick queue is
    drained before any I/O callback runs; so every pending ['error'],
    including that of a child spawned by an ['error'] listener in the same
    drain, is emitted before any [data] chunk or ['close'] (which waits
    for the child's stdio pipes to close). Among the other events, the
    earliest spawned child goes first, as in [run]. *)
Fixpoint run_node (fuel : nat) (st : state) : state :=
  match fuel with
  | 0 => st
  | S n =>
      match match next_error 0 (procs st) with
            | Some x => Some x
            | None => next_event 0 (procs st)
            end with
      | None => st
      | Some (k, p) =>
          match p_events p with
          | [] => st
          | e :: rest => run_node n (handle k p e rest st)
          end
      end
  end.

End Launch.

(** [analyzeCode(code, language, context)]. *)
Definition pythonCommands : list string := ["python"; "python3"; "py"].

Definition analyzeCode {json} (env : string -> list event)
    (detectorPath code language : string) : state (json := json) :=
  tryPythonCommand env pythonCommands detectorPath code language 0 (mkState None []).

(** A [JSON.parse] that accepts the empty object only (enough for the
    concrete runs below). *)
Definition parse_empty_object (s : string) : option string :=
  if String.eqb s "{}" then Some s else None.

(** What Node reports for a command that is not on the PATH: the ['error']
    event (ENOENT), then, as [ChildProcess] does on every exit, the
    ['close'] event with the negative errno as exit code. *)
Definition spawn_failure : list event := [EvError; EvClose (Some (-2)%Z)].

(** No candidate is installed. *)
Definition spawn_fails (cmd : string) : list event := spawn_failure.

(** [python] is missing; [python3] runs the detector, which prints the
    empty object and exits with 0. *)
Definition only_python3 (cmd : string) : list event :=
  if String.eqb cmd "python3" then [EvStdout "{}"; EvClose (Some 0%Z)]
  else spawn_failure.

(** The event loop on the first machine, in Node's order: the three
    ['error']s, then the three ['close']s. *)
Definition run_all_missing : state (json := string) :=
  run_node parse_empty_object spawn_fails pythonCommands "detector.py" "eval(x)" "python" 10
    (analyzeCode spawn_fails "detector.py" "eval(x)" "python").

(** The event loop on the second machine: the ['error'] of [python]
    spawns [python3]; the ['close'] of [python], due as soon as its pipes
    are closed, comes before the output of [python3], which has first to
    start the interpreter. *)
Definition run_only_python3 : state (json := string) :=
  run parse_empty_object only_python3 pythonCommands "detector.py" "eval(x)" "python" 10
    (analyzeCode only_python3 "detector.py" "eval(x)" "python").

(** [terminal], decided. *)
Definition all_done {json} (st : state (json := json)) : bool :=
  forallb (fun p => match p_events p with [] => true | _ => false end) (procs st).

End Launcher.

(** ** The [vulnDetection.analyze] command registered by [activate] *)
Module Activate.
Import Js.

(** The active editor: its selected text and its document's language. *)
Record editor : Type := mkEditor {
  selectedText : string;
  languageId : string
}.

(** What the command does: show an error or a warning and return, or go on
    to [analyzeCode(selectedText, language, context)]. *)
Inductive command_result : Type :=
  | ShowErrorMessage (msg : string)
  | ShowWarningMessage (msg : string)
  | AnalyzeCode (code : string) (language : jsval).

(** [languageMap], an object literal. *)
Definition languageMap : list (string * jsval) :=
  [("python", JStr "python"); ("javascript", JStr "javascript");
   ("javascriptreact", JStr "javascript"); ("typescript", JStr "javascript");
   ("typescriptreact", JStr "javascript")].

(** Strings are UTF-8 encoded.  The white space and line terminators
    [String.prototype.trim] removes: the ASCII ones (tab, line feed,
    vertical tab, form feed, carriage return, space) ... *)
Definition is_trim_space (c : ascii) : bool :=
  let n := nat_of_ascii c in
  Nat.eqb n 32 || (Nat.leb 9 n && Nat.leb n 13).

(** ... U+00A0 (two bytes C2 A0) ... *)
Definition is_trim_space2 (a b : nat) : bool := Nat.eqb a 194 && Nat.eqb b 160.

(** ... and, on three bytes, U+1680, U+2000 to U+200A, U+2028, U+2029,
    U+202F, U+205F, U+3000 and U+FEFF. *)
Definition is_trim_space3 (a b c : nat) : bool :=
  (Nat.eqb a 225 && Nat.eqb b 154 && Nat.eqb c 128) ||
  (Nat.eqb a 226 && Nat.eqb b 128 &&
     ((Nat.leb 128 c && Nat.leb c 138) || Nat.eqb c 168 || Nat.eqb c 169 || Nat.eqb c 175)) ||
  (Nat.eqb a 226 && Nat.eqb b 129 && Nat.eqb c 159) ||
  (Nat.eqb a 227 && Nat.eqb b 128 && Nat.eqb c 128) ||
  (Nat.eqb a 239 && Nat.eqb b 187 && Nat.eqb c 191).

(** [s.trim() === '']: [s] is a sequence of such characters. *)
Fixpoint trim_is_empty (s : string) : bool :=
  match s with
  | EmptyString => true
  | String c rest =>
      if is_trim_space c then trim_is_empty rest
      else
        match rest with
        | String c1 r1 =>
            if is_trim_space2 (nat_of_ascii c) (nat_of_ascii c1) then trim_is_empty r1
            else
              match r1 with
              | String c2 r2 =>
                  if is_trim_space3 (nat_of_ascii c) (nat_of_ascii c1) (nat_of_ascii c2)
                  then trim_is_empty r2 else false
              | EmptyString => false
              end
        | EmptyString => false
        end
  end.

Definition analyzeCommand (activeTextEditor : option editor) : command_result :=
  match activeTextEditor with
  | None => ShowErrorMessage "No active editor found."
  | Some ed =>
      let text := selectedText ed in
      if negb (truthy (JStr text)) || trim_is_empty text
      then ShowErrorMessage "Please select some code to analyze."
      else
        let language := lookup languageMap (languageId ed) in
        if negb (truthy language)
        then ShowWarningMessage
               ("Language " ++ String Html.dq (languageId ed) ++ String Html.dq EmptyString ++
                " is not supported. Only Python and JavaScript are currently supported.")
        else AnalyzeCode text language
  end.

(** The detector's closed set of languages. *)
Definition supported (v : jsval) : bool :=
  match v with
  | JStr s => String.eqb s "python" || String.eqb s "javascript"
  | _ => false
  end.

End Activate.

(** ** The progress task of the command: [analyzeCode] then
    [showResultsPanel], or the error message *)
Module Panel.
Import Js Html Launcher.

(** What the task does to the user interface, in order. *)
Inductive ui_effect : Type :=
  | CreatePanel                        (* [vscode.window.createWebviewPanel(...)] *)
  | SetPanelHtml (html : string)       (* [panel.webview.html = getResultsHtml(result)] *)
  | ShowError (message : string).      (* [vscode.window.showErrorMessage(...)] *)

(** The [async () => { try { ... } catch (error) { ... } }] callback given to
    [withProgress], once the promise of [analyzeCode] is settled with [o].
    [render] is [getResultsHtml] on the value [JSON.parse] returned: the
    html, or the message of the [TypeError] it throws. [showResultsPanel]
    creates the panel before it calls [getResultsHtml], so a throw leaves
    the panel created and goes to the same [catch]. The rejections of
    [tryPythonCommand] are [Error]s whose [message] is the text they were
    built with. *)
Definition progressTask {json} (render : json -> string + string) (o : @outcome json)
    : list ui_effect :=
  match o with
  | Resolved result =>
      match render result with
      | inl html => [CreatePanel; SetPanelHtml html]
      | inr message => [CreatePanel; ShowError ("Analysis failed: " ++ message)]
      end
  | Rejected message => [ShowError ("Analysis failed: " ++ message)]
  end.

(** Values [JSON.parse] can return on the detector's stdout: an object of
    the shape [response] (whose [results] field may be absent), or [null],
    on which [result.results] throws a [TypeError]. *)
Inductive parsed : Type :=
  | PObject (r : response)
  | PNull.

(** [getResultsHtml] on such a value; the message is V8's. *)
Definition renderParsed (v : parsed) : string + string :=
  match v with
  | PObject r => inl (getResultsHtml r)
  | PNull => inr "Cannot read properties of null (reading 'results')"
  end.

End Panel.

(** ** The detector engine *)
Module Engine.
Import Html.

(** Modelled from the spec: [detector.py], the detector the extension
    spawns, is not among the sources; this module follows the spec's data
    model (section 3) and its algorithm for [analyze] (section 4.2). *)
Inductive severity_level : Type := Critical | High | Medium | Low.

Definition sev_rank (s : severity_level) : nat :=
  match s with Critical => 3 | High => 2 | Medium => 1 | Low => 0 end.

Definition sev_str (s : severity_level) : string :=
  match s with
  | Critical => "Critical" | High => "High" | Medium => "Medium" | Low => "Low"
  end.

(** Modelled from the spec: one occurrence of a rule's pattern, as
    character offsets into the code and the matched text. *)
Record occurrence : Type := mkOccurrence {
  o_start : nat;
  o_end : nat;
  o_text : string
}.

(** Modelled from the spec: a rule of the catalog. *)
Record rule : Type := mkRule {
  r_id : string;
  r_language : string;
  r_category : string;
  r_matcher : string -> list occurrence;
  r_exclusion : option (string -> bool);
  r_severity : severity_level;
  r_explanation : string -> string;
  r_patch : string -> string
}.

(** A candidate finding: the rule's declaration index, its severity, the
    span, the 1-based lines and the rendered texts. *)
Record candidate : Type := mkCandidate {
  c_rule : nat;
  c_severity : severity_level;
  c_span : nat * nat;
  c_lines : list nat;
  c_category : string;
  c_explanation : string;
  c_patch : string
}.

Definition supported_languages : list string := ["python"; "javascript"].

(** 1-based line of a character offset. *)
Definition line_of (code : string) (off : nat) : nat :=
  S (length (filter (fun c => Ascii.eqb c "010"%char)
                    (firstn off (list_ascii_of_string code)))).

Definition occurrence_lines (code : string) (o : occurrence) : list nat :=
  let first := line_of code (o_start o) in
  let last := line_of code (Nat.pred (o_end o)) in
  seq first (S (last - first)).

(** [rulesFor(language)], with each rule's declaration index. *)
Definition rulesFor (catalog : list rule) (language : string) : list (nat * rule) :=
  filter (fun ir => String.eqb (r_language (snd ir)) language)
         (combine (seq 0 (length catalog)) catalog).

Definition excluded (r : rule) (o : occurrence) : bool :=
  match r_exclusion r with Some ex => ex (o_text o) | None => false end.

(** Steps 3, 4 and 6: every accepted occurrence of every rule. *)
Definition candidates (catalog : list rule) (code language : string) : list candidate :=
  flat_map (fun '(i, r) =>
              map (fun o => mkCandidate i (r_severity r) (o_start o, o_end o)
                              (occurrence_lines code o) (r_category r)
                              (r_explanation r (o_text o)) (r_patch r (o_text o)))
                  (filter (fun o => negb (excluded r o)) (r_matcher r code)))
           (rulesFor catalog language).

(** Step 5: [d] displaces [c] on the identical span. *)
Definition beats (d c : candidate) : bool :=
  (Nat.eqb (fst (c_span d)) (fst (c_span c)) && Nat.eqb (snd (c_span d)) (snd (c_span c))) &&
  (Nat.ltb (sev_rank (c_severity c)) (sev_rank (c_severity d)) ||
   (Nat.eqb (sev_rank (c_severity c)) (sev_rank (c_severity d)) &&
    Nat.ltb (c_rule d) (c_rule c))).

Definition dedup (cs : list candidate) : list candidate :=
  filter (fun c => negb (existsb (fun d => beats d c) cs)) cs.

Definition first_line (c : candidate) : nat := hd 0 (c_lines c).

(** Step 7: severity descending, then first line, then declaration order. *)
Definition cand_leb (a b : candidate) : bool :=
  Nat.ltb (sev_rank (c_severity b)) (sev_rank (c_severity a)) ||
  (Nat.eqb (sev_rank (c_severity a)) (sev_rank (c_severity b)) &&
   (Nat.ltb (first_line a) (first_line b) ||
    (Nat.eqb (first_line a) (first_line b) && Nat.leb (c_rule a) (c_rule b)))).

Fixpoint insert (c : candidate) (cs : list candidate) : list candidate :=
  match cs with
  | [] => [c]
  | d :: t => if cand_leb c d then c :: d :: t else d :: insert c t
  end.

Fixpoint sort (cs : list candidate) : list candidate :=
  match cs with
  | [] => []
  | c :: t => insert c (sort t)
  end.

Definition render (c : candidate) : finding :=
  mkFinding (c_category c) (sev_str (c_severity c))
            (Some (map Z.of_nat (c_lines c))) (c_explanation c) (c_patch c).

(** The outcome of one analysis: a response, or the unsupported-language
    signal of step 1. *)
Inductive engine_output : Type :=
  | Answer (r : response)
  | UnsupportedLanguage (language : string).

Definition analyze (catalog : list rule) (code language : string) : engine_output :=
  if existsb (String.eqb language) supported_languages
  then Answer (mkResponse language
                 (Some (map render (sort (dedup (candidates catalog code language))))))
  else UnsupportedLanguage language.

(** A two-rule Python catalog, for concrete runs. *)
Definition find_occurrences (pat code : string) : list occurrence :=
  match String.index 0 pat code with
  | Some n => [mkOccurrence n (n + String.length pat) pat]
  | None => []
  end.

Definition sample_catalog : list rule :=
  [mkRule "py-eval" "python" "Code Injection" (find_occurrences "eval(") None Critical
     (fun m => "Use of " ++ m) (fun _ => "ast.literal_eval(...)");
   mkRule "py-pickle" "python" "Insecure Deserialization" (find_occurrences "pickle.loads(")
     None High (fun m => "Use of " ++ m) (fun _ => "json.loads(...)")].

End Engine.

(** ** Observations used to state properties of the panel *)
Module HtmlObs.
Import Js Html.

(** Characters that open, close or delimit markup. *)
Definition is_special (c : ascii) : bool :=
  Ascii.eqb c "<"%char || Ascii.eqb c ">"%char || Ascii.eqb c dq
  || Ascii.eqb c "'"%char.

Fixpoint count_special (s : string) : nat :=
  match s with
  | EmptyString => 0
  | String c t => (if is_special c then 1 else 0) + count_special t
  end.

Fixpoint has_char (d : ascii) (s : string) : bool :=
  match s with
  | EmptyString => false
  | String c t => Ascii.eqb c d || has_char d t
  end.

(** [String.index]-based substring test. *)
Definition contains (sub s : string) : bool :=
  match String.index 0 sub s with Some _ => true | None => false end.

(** The same response with every string field of every finding emptied;
    the number of findings and their [lines] are kept. *)
Definition blank_finding (v : finding) : finding :=
  mkFinding "" "" (lines v) "" "".

Definition blank_response (r : response) : response :=
  mkResponse (language r) (option_map (map blank_finding) (results r)).

(** [sub] occurs in [s]. *)
Definition occurs (sub s : string) : Prop := exists pre post, s = pre ++ sub ++ post.

(** What the webview's HTML parser makes of the five character references
    [escapeHtml] emits ([&amp;], [&lt;], [&gt;], [&quot;], [&#039;]); any
    other text, an ampersand included, is kept. *)
Fixpoint html_unescape (s : string) : string :=
  match s with
  | EmptyString => EmptyString
  | String c rest =>
      if Ascii.eqb c "&"%char then
        match rest with
        | String c1 (String c2 (String c3 r3)) =>
            let w3 := String c1 (String c2 (String c3 EmptyString)) in
            if String.eqb w3 "lt;" then String "<"%char (html_unescape r3)
            else if String.eqb w3 "gt;" then String ">"%char (html_unescape r3)
            else
              match r3 with
              | String c4 r4 =>
                  if String.eqb (w3 ++ String c4 EmptyString) "amp;"
                  then String "&"%char (html_unescape r4)
                  else
                    match r4 with
                    | String c5 r5 =>
                        let w5 := w3 ++ String c4 (String c5 EmptyString) in
                        if String.eqb w5 "quot;" then String dq (html_unescape r5)
                        else if String.eqb w5 "#039;" then String "'"%char (html_unescape r5)
                        else String c (html_unescape rest)
                    | EmptyString => String c (html_unescape rest)
                    end
              | EmptyString => String c (html_unescape rest)
              end
        | _ => String c (html_unescape rest)
        end
      else String c (html_unescape rest)
  end.

End HtmlObs.

(** ** Observations used to state properties of the launcher *)
Module LauncherObs.
Import Js Launcher.

Definition is_error (e : event) : bool :=
  match e with EvError => true | _ => false end.
Definition is_close (e : event) : bool :=
  match e with EvClose _ => true | _ => false end.
Definition count_error (l : list event) : nat := length (filter is_error l).
Definition count_close (l : list event) : nat := length (filter is_close l).

(** A [data] chunk, on stdout or stderr. *)
Definition is_data (e : event) : bool := negb (is_error e || is_close e).

(** The stdout (stderr) chunks of a list of events, concatenated in order. *)
Fixpoint stdout_of (l : list event) : string :=
  match l with
  | [] => ""
  | EvStdout chunk :: t => chunk ++ stdout_of t
  | _ :: t => stdout_of t
  end.

Fixpoint stderr_of (l : list event) : string :=
  match l with
  | [] => ""
  | EvStderr chunk :: t => chunk ++ stderr_of t
  | _ :: t => stderr_of t
  end.

Section Obs.
Context {json : Type} (env : string -> list event)
        (commands : list string) (detectorPath code language : string).

(** Every child spawned gets the one input and the end of its stdin. *)
Definition stdin_ok (st : @state json) : Prop :=
  forall k p, nth_error (procs st) k = Some p ->
    p_stdin p = [StdinWrite (input code language); StdinEnd].

(** Invariant of the states reachable from [analyzeCode]: the children
    spawned so far are the candidates [0 .. n-1] in order, each with the
    events it has already emitted ([pre]) in front of its pending ones; an
    emitted ['close'] has settled the promise, an emitted ['error'] has
    spawned the next candidate or settled the promise, and only the last
    child may still have an ['error'] pending. *)
Definition inv (st : @state json) : Prop :=
  length (procs st) <= length commands /\
  (procs st = [] -> settled st <> None) /\
  forall k p, nth_error (procs st) k = Some p ->
    p_index p = k /\ p_cmd p = nth k commands "" /\
    exists pre, (pre ++ p_events p)%list = env (p_cmd p) /\
      (0 < count_close pre -> settled st <> None) /\
      (0 < count_error pre -> S k < length (procs st) \/ settled st <> None) /\
      (S k < length (procs st) -> count_error (p_events p) = 0).

(** Child [p] has emitted its ['error'] already. *)
Definition errored (p : proc) : Prop :=
  count_error (p_events p) < count_error (env (p_cmd p)).

(** A child is followed by another one only once it has emitted an
    ['error']; the promise is rejected with [notInstalled] only once every
    candidate has been spawned and has emitted an ['error']. *)
Definition inv_retry (st : @state json) : Prop :=
  (forall k p, nth_error (procs st) k = Some p -> S k < length (procs st) -> errored p) /\
  (settled st = Some (Rejected notInstalled) ->
   length (procs st) = length commands /\
   forall k p, nth_error (procs st) k = Some p -> errored p).

(** A child that has emitted its ['error'] is followed by the next
    candidate, unless it is the last candidate, and then the promise is
    settled. *)
Definition inv_advance (st : @state json) : Prop :=
  forall k p, nth_error (procs st) k = Some p -> errored p ->
    S k < length (procs st) \/ (S k = length commands /\ settled st <> None).

(** Only the first candidate has been spawned, for index 0 with the
    detector path as its one argument, and it has emitted [pre]. *)
Definition first_only (st : @state json) : Prop :=
  exists p pre, procs st = [p] /\ p_cmd p = nth 0 commands "" /\
    p_args p = [detectorPath] /\ p_index p = 0 /\
    (pre ++ p_events p)%list = env (p_cmd p).

End Obs.

(** The run of a single child whose events are the data chunks [l] then
    ['close'] with [c]: it has emitted [pre], its buffers hold the chunks
    of [pre], and the promise is pending until the ['close'], then settled
    by it. *)
Definition first_progress {json} (json_parse : string -> option json)
    (l : list event) (c : option Z) (st : @state json) : Prop :=
  exists p pre, procs st = [p] /\ (pre ++ p_events p)%list = (l ++ [EvClose c])%list /\
    p_stdout p = stdout_of pre /\ p_stderr p = stderr_of pre /\
    ((settled st = None /\ p_events p <> []) \/
     (p_events p = [] /\
      settled st = Some (close_action json_parse (stdout_of l) (stderr_of l) c))).

End LauncherObs.

(* ------------------------------------------------------------------ *)
(** ** Facts about the results panel *)
Module HtmlFacts.
Import Js Html HtmlObs.

Lemma count_special_app (s t : string) :
  count_special (s ++ t) = count_special s + count_special t.
Proof. induction s as [|c s IH]; simpl; [reflexivity | rewrite IH; lia]. Qed.

Lemma count_special_zero (s : string) :
  (forall d, has_char d s = true -> is_special d = false) ->
  count_special s = 0.
Proof.
  induction s as [|c s IH]; intros H; simpl; [reflexivity|].
  rewrite (H c) by (simpl; rewrite Ascii.eqb_refl; reflexivity).
  apply IH. intros d Hd. apply H. simpl. rewrite Hd, orb_true_r. reflexivity.
Qed.

Lemma has_char_app (d : ascii) (s t : string) :
  has_char d (s ++ t) = has_char d s || has_char d t.
Proof. induction s as [|c s IH]; simpl; [reflexivity | rewrite IH, orb_assoc; reflexivity]. Qed.

Lemma has_char_replace_all (d c : ascii) (r s : string) :
  has_char d (replace_all c r s) = true ->
  (has_char d s = true /\ d <> c) \/ has_char d r = true.
Proof.
  induction s as [|e s IH]; simpl; [discriminate|].
  destruct (Ascii.eqb e c) eqn:Eec.
  - rewrite has_char_app. intros H. apply orb_true_iff in H as [H|H]; [now right|].
    destruct (IH H) as [[H1 H2]|H1]; [left; rewrite H1, orb_true_r; auto|now right].
  - simpl. intros H. apply orb_true_iff in H as [H|H].
    + left. apply Ascii.eqb_eq in H. subst e. rewrite Ascii.eqb_refl. split; [reflexivity|].
      intros ->. rewrite Ascii.eqb_refl in Eec. discriminate.
    + destruct (IH H) as [[H1 H2]|H1]; [left; rewrite H1, orb_true_r; auto|now right].
Qed.

Ltac lit_char H := cbn [has_char] in H; repeat (apply orb_true_iff in H as [H|H]);
  try discriminate; apply Ascii.eqb_eq in H; subst; reflexivity.

(** Every character of [escapeHtml s] is a non-special one. *)
Lemma escapeHtml_chars (s : string) (d : ascii) :
  has_char d (escapeHtml s) = true -> is_special d = false.
Proof.
  unfold escapeHtml. intros H.
  apply has_char_replace_all in H as [[H Hq]|H]; [|lit_char H].
  apply has_char_replace_all in H as [[H Hd]|H]; [|lit_char H].
  apply has_char_replace_all in H as [[H Hg]|H]; [|lit_char H].
  apply has_char_replace_all in H as [[H Hl]|H]; [|lit_char H].
  apply has_char_replace_all in H as [[H Ha]|H]; [|lit_char H].
  unfold is_special.
  destruct (Ascii.eqb_spec d "<"%char); [contradiction|].
  destruct (Ascii.eqb_spec d ">"%char); [contradiction|].
  destruct (Ascii.eqb_spec d dq); [contradiction|].
  destruct (Ascii.eqb_spec d "'"%char); [contradiction|]. reflexivity.
Qed.

Lemma count_special_escapeHtml (s : string) : count_special (escapeHtml s) = 0.
Proof. apply count_special_zero. intros d. apply escapeHtml_chars. Qed.

Lemma count_special_uint (u : Decimal.uint) :
  count_special (NilEmpty.string_of_uint u) = 0.
Proof. induction u; simpl; auto. Qed.

Lemma count_special_nat_str (n : nat) : count_special (nat_str n) = 0.
Proof. apply count_special_uint. Qed.

Lemma count_special_prototype (k : string) :
  count_special (to_str (object_prototype_lookup k)) = 0.
Proof.
  unfold object_prototype_lookup.
  destruct (String.eqb k "constructor"); [reflexivity|].
  destruct (String.eqb k "__proto__"); [reflexivity|].
  destruct (existsb _ _) eqn:E; [|reflexivity].
  apply existsb_exists in E as [n [Hn Hk]]. apply String.eqb_eq in Hk. subst n.
  simpl in Hn. repeat destruct Hn as [<-|Hn]; try reflexivity. contradiction.
Qed.

(** The colour interpolated into the style attributes holds no special
    character, whatever the severity string is. *)
Lemma count_special_severityColor (sev : string) :
  count_special (severityColor sev) = 0.
Proof.
  unfold severityColor, or_else, severityColors. cbn [lookup].
  repeat (destruct (String.eqb sev _); [reflexivity|]).
  destruct (truthy (object_prototype_lookup sev)); [|reflexivity].
  apply count_special_prototype.
Qed.

Lemma count_special_header (r : response) :
  count_special (headerColor r) + count_special (statusIcon r)
  + count_special (statusText r) = 0.
Proof.
  unfold headerColor, statusIcon, statusText.
  destruct (isError r); [reflexivity|].
  destruct (hasVulnerabilities r); [|reflexivity].
  rewrite !count_special_app, count_special_nat_str.
  destruct (Nat.eqb _ 1); reflexivity.
Qed.

Lemma lineText_blank (v : finding) : lineText (blank_finding v) = lineText v.
Proof. reflexivity. Qed.

Lemma count_special_card (v : finding) (i n : nat) :
  count_special (card v i n) = count_special (card (blank_finding v) i n).
Proof.
  unfold card. cbv zeta. rewrite lineText_blank.
  rewrite !count_special_app, !count_special_escapeHtml, !count_special_severityColor.
  reflexivity.
Qed.

Lemma count_special_cards (i n : nat) (vs : list finding) :
  count_special (cards i n vs) = count_special (cards i n (map blank_finding vs)).
Proof.
  revert i. induction vs as [|v vs IH]; intros i; cbn [cards map]; [reflexivity|].
  rewrite !count_special_app, IH, count_special_card. reflexivity.
Qed.

Lemma results_of_blank (r : response) :
  results_of (blank_response r) = map blank_finding (results_of r).
Proof. destruct r as [l [rs|]]; reflexivity. Qed.

Lemma cards_shown (r : response) :
  hasVulnerabilities r || isError r = negb (Nat.eqb (length (results_of r)) 0).
Proof.
  unfold hasVulnerabilities, isError.
  destruct (results_of r); [reflexivity|]. simpl. destruct (String.eqb _ _); reflexivity.
Qed.

(** The panel depends on a response only through its [results]. *)
Lemma getResultsHtml_results (r r' : response) :
  results_of r = results_of r' -> getResultsHtml r = getResultsHtml r'.
Proof.
  intros H. unfold getResultsHtml, headerColor, statusIcon, statusText, cardsHtml,
    hasVulnerabilities, isError. rewrite H. reflexivity.
Qed.

(** C2: a response whose [results] sequence is empty (or absent) is never
    classified as an analysis error nor as vulnerable: the panel shows the
    status "No vulnerabilities detected" and the "Code Appears Safe"
    message, and never "Analysis Error". *)
Theorem empty_results_render_safe (r : response) (Hempty : results_of r = []) :
  isError r = false /\ hasVulnerabilities r = false /\
  statusText r = "No vulnerabilities detected" /\ cardsHtml r = safe_0 /\
  contains "Code Appears Safe" (getResultsHtml r) = true /\
  contains "No vulnerabilities detected" (getResultsHtml r) = true /\
  contains "Analysis Error" (getResultsHtml r) = false.
Proof.
  assert (Hr : getResultsHtml r = getResultsHtml (mkResponse "" (Some [])))
    by (apply getResultsHtml_results; exact Hempty).
  unfold statusText, cardsHtml, hasVulnerabilities, isError. rewrite Hr, Hempty.
  repeat split; vm_compute; reflexivity.
Qed.

Lemma empty_results_render_safe_witness :
  results_of (mkResponse "python" (Some [])) = [] /\
  isError (mkResponse "python" (Some [])) = false /\
  hasVulnerabilities (mkResponse "python" (Some [])) = false /\
  statusText (mkResponse "python" (Some [])) = "No vulnerabilities detected" /\
  cardsHtml (mkResponse "python" (Some [])) = safe_0 /\
  contains "Code Appears Safe" (getResultsHtml (mkResponse "python" (Some []))) = true /\
  contains "No vulnerabilities detected" (getResultsHtml (mkResponse "python" (Some []))) = true /\
  contains "Analysis Error" (getResultsHtml (mkResponse "python" (Some []))) = false.
Proof.
  split; [reflexivity|]. apply (empty_results_render_safe (mkResponse "python" (Some []))).
  reflexivity.
Defined.

(** C9: [escapeHtml] leaves no [<], [>], double quote or single quote in
    its output, and every response string interpolated into the panel
    (vulnerability, severity, explanation, patch, line text) goes through it:
    the number of markup characters of the whole page does not depend on
    those strings (it is the same once they are all emptied). *)
Theorem escapeHtml_no_markup :
  (forall s : string,
     has_char "<"%char (escapeHtml s) = false /\
     has_char ">"%char (escapeHtml s) = false /\
     has_char dq (escapeHtml s) = false /\
     has_char "'"%char (escapeHtml s) = false) /\
  (forall r : response,
     count_special (getResultsHtml r) = count_special (getResultsHtml (blank_response r))).
Proof.
  split.
  - intros s.
    assert (Hs : forall d, is_special d = true -> has_char d (escapeHtml s) = false).
    { intros d Hd. destruct (has_char d (escapeHtml s)) eqn:E; [|reflexivity].
      rewrite (escapeHtml_chars s d E) in Hd. discriminate. }
    repeat split; apply Hs; reflexivity.
  - intros r. unfold getResultsHtml. rewrite !count_special_app.
    pose proof (count_special_header r) as H1.
    pose proof (count_special_header (blank_response r)) as H2.
    assert (H3 : count_special (cardsHtml r) = count_special (cardsHtml (blank_response r))).
    { unfold cardsHtml. rewrite !cards_shown, results_of_blank, length_map.
      destruct (negb _); [apply count_special_cards | reflexivity]. }
    lia.
Qed.

End HtmlFacts.

(* ------------------------------------------------------------------ *)
(** ** Facts about the launcher *)
Module LauncherFacts.
Import Js Launcher LauncherObs.

Lemma count_error_app (l l' : list event) :
  count_error (l ++ l') = count_error l + count_error l'.
Proof. unfold count_error. rewrite filter_app, length_app. reflexivity. Qed.

Lemma count_close_app (l l' : list event) :
  count_close (l ++ l') = count_close l + count_close l'.
Proof. unfold count_close. rewrite filter_app, length_app. reflexivity. Qed.

Lemma nth_error_set_nth {A} (l : list A) (k j : nat) (x : A) :
  nth_error (set_nth k x l) j =
  if Nat.eqb j k then (match nth_error l j with Some _ => Some x | None => None end)
  else nth_error l j.
Proof.
  revert k j. induction l as [|y l IH]; intros k j; destruct k, j; simpl;
    try reflexivity; try (destruct (Nat.eqb _ _); reflexivity).
  apply IH.
Qed.

Lemma length_set_nth {A} (l : list A) (k : nat) (x : A) :
  length (set_nth k x l) = length l.
Proof. revert k. induction l as [|y l IH]; intros [|k]; simpl; auto. Qed.

Lemma next_event_some (ps : list proc) (k0 k : nat) (p : proc) :
  next_event k0 ps = Some (k, p) ->
  k0 <= k /\ nth_error ps (k - k0) = Some p.
Proof.
  revert k0. induction ps as [|q ps IH]; intros k0 H; simpl in H; [discriminate|].
  destruct (p_events q) eqn:Eq.
  - apply IH in H as [H1 H2]. split; [lia|].
    replace (k - k0) with (S (k - S k0)) by lia. exact H2.
  - inversion H; subst. rewrite Nat.sub_diag. split; [lia | reflexivity].
Qed.

Section Facts.
Context {json : Type} (json_parse : string -> option json)
        (env : string -> list event)
        (commands : list string) (detectorPath code language : string).

Local Abbreviation STEP := (step json_parse env commands detectorPath code language).
Local Abbreviation STAR := (star json_parse env commands detectorPath code language).
Local Abbreviation TRY := (tryPythonCommand env commands detectorPath code language).
Local Abbreviation STDIN_OK := (stdin_ok (json := json) code language).
Local Abbreviation INV := (inv (json := json) env commands).
Local Abbreviation RETRY := (inv_retry (json := json) env commands).
Local Abbreviation ADVANCE := (inv_advance (json := json) env commands).

(** Node emits ['error'] at most once for a child that is neither killed
    nor sent messages, as here. *)
Hypothesis single_error : forall c, count_error (env c) <= 1.

Lemma star_trans (a b c : @state json) : STAR a b -> STAR b c -> STAR a c.
Proof. induction 1; intros; [assumption | econstructor; eauto]. Qed.

(** The schedule [run] is one of the behaviours of the event loop. *)
Lemma run_star (fuel : nat) (st : @state json) :
  STAR st (run json_parse env commands detectorPath code language fuel st).
Proof.
  revert st. induction fuel as [|n IH]; intros st; simpl; [constructor|].
  destruct (next_event 0 (procs st)) as [[k p]|] eqn:E; [|constructor].
  destruct (p_events p) as [|e rest] eqn:Ep; [constructor|].
  apply next_event_some in E as [_ E]. rewrite Nat.sub_0_r in E.
  econstructor; [econstructor; eauto | apply IH].
Qed.

Lemma settled_settle (o : @outcome json) (st : @state json) : settled (settle o st) <> None.
Proof. unfold settle. destruct (settled st) eqn:E; simpl; congruence. Qed.

Lemma settled_settle_mono (o : @outcome json) (st : @state json) :
  settled st <> None -> settled (settle o st) <> None.
Proof. intros _. apply settled_settle. Qed.

Lemma procs_settle (o : @outcome json) (st : @state json) : procs (settle o st) = procs st.
Proof. unfold settle. destruct (settled st); reflexivity. Qed.

Lemma stdin_ok_try (i : nat) (st : @state json) : STDIN_OK st -> STDIN_OK (TRY i st).
Proof.
  unfold stdin_ok, tryPythonCommand. intros H k p Hk.
  destruct (Nat.leb _ _).
  - rewrite procs_settle in Hk. eauto.
  - simpl in Hk. destruct (Nat.lt_ge_cases k (length (procs st))) as [Hl|Hl].
    + rewrite nth_error_app1 in Hk by exact Hl. eauto.
    + rewrite nth_error_app2 in Hk by exact Hl.
      destruct (k - length (procs st)) as [|j]; simpl in Hk.
      * inversion Hk; reflexivity.
      * destruct j; discriminate.
Qed.

Lemma stdin_ok_set (st : @state json) (k : nat) (p : proc) (evs : list event) (o e : string) :
  nth_error (procs st) k = Some p -> STDIN_OK st ->
  STDIN_OK (set_proc k (with_events p evs o e) st).
Proof.
  unfold stdin_ok, set_proc. simpl. intros Hp H j q Hj.
  rewrite nth_error_set_nth in Hj. destruct (Nat.eqb_spec j k).
  - subst j. rewrite Hp in Hj. inversion Hj; subst. simpl. eauto.
  - eauto.
Qed.

Lemma stdin_ok_step (st st' : @state json) : STEP st st' -> STDIN_OK st -> STDIN_OK st'.
Proof.
  intros [st0 k p e rest Hp He] H. unfold handle.
  destruct e.
  - apply stdin_ok_set; assumption.
  - apply stdin_ok_set; assumption.
  - apply stdin_ok_try, stdin_ok_set; assumption.
  - unfold stdin_ok. intros j q Hj. rewrite procs_settle in Hj.
    exact (stdin_ok_set st0 k p rest (p_stdout p) (p_stderr p) Hp H j q Hj).
Qed.

Lemma stdin_ok_star (st st' : @state json) : STAR st st' -> STDIN_OK st -> STDIN_OK st'.
Proof. induction 1; eauto using stdin_ok_step. Qed.

Lemma inv_init : INV (TRY 0 (mkState None [])).
Proof.
  unfold inv, tryPythonCommand. destruct (Nat.leb_spec (length commands) 0) as [H|H].
  - split; [rewrite procs_settle; simpl; lia|].
    split; [intros _; apply settled_settle|].
    intros k p Hk. rewrite procs_settle in Hk. destruct k; discriminate.
  - simpl. split; [lia|]. split; [intros Hn; discriminate Hn|].
    intros [|[|k]] p Hk; simpl in Hk; try discriminate.
    inversion Hk; subst p; simpl. split; [reflexivity|]. split; [reflexivity|].
    exists []. simpl. split; [reflexivity|].
    split; [|split]; intros; unfold count_close, count_error in *; simpl in *; lia.
Qed.

(** A step that rewrites child [k] after it emitted [e], and settles the
    promise if [e] is an ['error'] or a ['close'], keeps the invariant. *)
Lemma inv_update (st st' : @state json) (k : nat) (p : proc) (e : event)
    (rest : list event) (o' e' : string) :
  INV st -> nth_error (procs st) k = Some p -> p_events p = e :: rest ->
  procs st' = set_nth k (with_events p rest o' e') (procs st) ->
  (settled st <> None -> settled st' <> None) ->
  (is_close e || is_error e = true -> settled st' <> None) ->
  INV st'.
Proof.
  intros [Hlen [Hnil Hall]] Hp He Hprocs Hmono Hset.
  unfold inv. rewrite Hprocs, length_set_nth. split; [exact Hlen|]. split.
  { intros Hn. apply (f_equal (@length proc)) in Hn. rewrite length_set_nth in Hn.
    destruct (procs st); [destruct k; discriminate Hp | discriminate Hn]. }
  intros j q Hj. rewrite nth_error_set_nth in Hj.
  destruct (Nat.eqb_spec j k) as [->|Hjk].
  - rewrite Hp in Hj. inversion Hj; subst q. clear Hj.
    destruct (Hall k p Hp) as [Hi [Hc [pre [Hpre [Hcl [Her Hlast]]]]]].
    simpl. split; [exact Hi|]. split; [exact Hc|].
    exists (pre ++ [e])%list. rewrite <- app_assoc. simpl. rewrite <- He.
    split; [exact Hpre|].
    rewrite count_close_app, count_error_app.
    split; [|split].
    + intros Hc'. destruct (count_close pre) eqn:E0; [|apply Hmono, Hcl; lia].
      apply Hset. destruct e; simpl in *; try reflexivity; unfold count_close in Hc'; simpl in Hc'; lia.
    + intros Hc'. destruct (count_error pre) eqn:E0.
      * right. apply Hset. destruct e; simpl in *; try reflexivity; unfold count_error in Hc'; simpl in Hc'; lia.
      * destruct (Her ltac:(lia)) as [H|H]; [left; exact H | right; apply Hmono, H].
    + intros Hk. specialize (Hlast Hk). rewrite He in Hlast.
      unfold count_error in *. simpl in Hlast. destruct (is_error e); simpl in Hlast; lia.
  - destruct (Hall j q Hj) as [Hi [Hc [pre [Hpre [Hcl [Her Hlast]]]]]].
    split; [exact Hi|]. split; [exact Hc|]. exists pre. split; [exact Hpre|].
    split; [intros H; apply Hmono, Hcl, H|]. split; [|exact Hlast].
    intros H. destruct (Her H) as [H'|H']; [left; exact H' | right; apply Hmono, H'].
Qed.

Lemma inv_step (st st' : @state json) : STEP st st' -> INV st -> INV st'.
Proof.
  intros [st0 k p e rest Hp He] Hinv. unfold handle.
  destruct e as [chunk|chunk| |c].
  - eapply inv_update; eauto;
      first [reflexivity | intros H; discriminate H | intros H; exact H].
  - eapply inv_update; eauto;
      first [reflexivity | intros H; discriminate H | intros H; exact H].
  - pose proof Hinv as [Hlen [Hnil Hall]].
    destruct (Hall k p Hp) as [Hi [Hc [pre [Hpre [Hcl [Her Hlast]]]]]].
    assert (Hk : length (procs st0) = S k).
    { assert (k < length (procs st0)) by (apply nth_error_Some; rewrite Hp; discriminate).
      destruct (Nat.lt_ge_cases (S k) (length (procs st0))) as [H'|H']; [|lia].
      specialize (Hlast H'). rewrite He in Hlast. unfold count_error in Hlast.
      simpl in Hlast. discriminate Hlast. }
    rewrite Hi. unfold tryPythonCommand at 1.
    destruct (Nat.leb_spec (length commands) (k + 1)) as [Hc1|Hc1].
    + eapply inv_update; eauto;
        [rewrite procs_settle; reflexivity | intros _; apply settled_settle
        | intros _; apply settled_settle].
    + unfold inv. simpl. rewrite length_app, length_set_nth, Hk. simpl.
      split; [lia|]. split; [intros Hn; apply app_eq_nil in Hn as [_ Hn]; discriminate Hn|].
      intros j q Hj. destruct (Nat.lt_ge_cases j (S k)) as [Hjk|Hjk].
      * rewrite nth_error_app1 in Hj by (rewrite length_set_nth; lia).
        rewrite nth_error_set_nth in Hj. destruct (Nat.eqb_spec j k) as [->|Hne].
        -- rewrite Hp in Hj. inversion Hj; subst q. clear Hj. simpl.
           split; [exact Hi|]. split; [exact Hc|].
           exists (pre ++ [EvError])%list. rewrite <- app_assoc. simpl. rewrite <- He.
           split; [exact Hpre|]. rewrite count_close_app, count_error_app.
           split; [|split].
           ++ intros H. apply Hcl. unfold count_close in *. simpl in H. lia.
           ++ intros _. left. lia.
           ++ intros _. pose proof (single_error (p_cmd p)) as H1.
              rewrite <- Hpre, He, count_error_app in H1. unfold count_error in *.
              simpl in H1. lia.
        -- destruct (Hall j q Hj) as [Hi' [Hc' [pre' [Hpre' [Hcl' [Her' Hlast']]]]]].
           split; [exact Hi'|]. split; [exact Hc'|]. exists pre'.
           split; [exact Hpre'|]. split; [exact Hcl'|]. split.
           ++ intros H. destruct (Her' H) as [H'|H']; [left; lia | right; exact H'].
           ++ intros _. apply Hlast'. lia.
      * rewrite nth_error_app2 in Hj by (rewrite length_set_nth, Hk; lia).
        rewrite length_set_nth, Hk in Hj.
        destruct (j - S k) as [|i] eqn:Ej; [|destruct i; discriminate Hj].
        simpl in Hj. inversion Hj; subst q. clear Hj. simpl.
        split; [lia|]. split; [f_equal; lia|].
        exists []. simpl. split; [reflexivity|].
        split; [|split]; intros; unfold count_close, count_error in *; simpl in *; lia.
  - eapply inv_update; eauto;
      [rewrite procs_settle; reflexivity | intros _; apply settled_settle
      | intros _; apply settled_settle].
Qed.

Lemma inv_star (st st' : @state json) : STAR st st' -> INV st -> INV st'.
Proof. induction 1; eauto using inv_step. Qed.

(** In a state where no child has events left, and every child emitted an
    ['error'] or a ['close'], the promise is settled. *)
Lemma inv_terminal_settled (st : @state json) :
  INV st -> terminal st ->
  (forall k p, nth_error (procs st) k = Some p ->
     0 < count_error (env (p_cmd p)) + count_close (env (p_cmd p))) ->
  settled st <> None.
Proof.
  intros [Hlen [Hnil Hall]] Hterm Hev.
  destruct (nth_error (procs st) (length (procs st) - 1)) as [p|] eqn:E.
  - destruct (Hall _ p E) as [_ [_ [pre [Hpre [Hcl [Her _]]]]]].
    rewrite (Hterm _ p E), app_nil_r in Hpre. specialize (Hev _ p E).
    rewrite <- Hpre in Hev.
    destruct (count_close pre) eqn:Ec; [|apply Hcl; lia].
    destruct (Her ltac:(lia)) as [H|H]; [lia | exact H].
  - apply nth_error_None in E. apply Hnil. destruct (procs st); [reflexivity|].
    simpl in E. lia.
Qed.

Lemma next_error_some (ps : list proc) (k0 k : nat) (p : proc) :
  next_error k0 ps = Some (k, p) ->
  k0 <= k /\ nth_error ps (k - k0) = Some p.
Proof.
  revert k0. induction ps as [|q ps IH]; intros k0 H; simpl in H; [discriminate|].
  destruct (p_events q) as [|[] t] eqn:Eq;
    try (apply IH in H as [H1 H2]; split; [lia|];
         replace (k - k0) with (S (k - S k0)) by lia; exact H2).
  inversion H; subst. rewrite Nat.sub_diag. split; [lia | reflexivity].
Qed.

(** The schedule [run_node] is one of the behaviours of the event loop. *)
Lemma run_node_star (fuel : nat) (st : @state json) :
  STAR st (run_node json_parse env commands detectorPath code language fuel st).
Proof.
  revert st. induction fuel as [|n IH]; intros st; simpl; [constructor|].
  destruct (match next_error 0 (procs st) with Some x => Some x
            | None => next_event 0 (procs st) end) as [[k p]|] eqn:E; [|constructor].
  destruct (p_events p) as [|e rest] eqn:Ep; [constructor|].
  assert (Hk : nth_error (procs st) k = Some p).
  { destruct (next_error 0 (procs st)) as [x|] eqn:E1.
    - inversion E; subst x. apply next_error_some in E1 as [_ E1].
      rewrite Nat.sub_0_r in E1. exact E1.
    - apply next_event_some in E as [_ E]. rewrite Nat.sub_0_r in E. exact E. }
  econstructor; [econstructor; eauto | apply IH].
Qed.

(** Once settled, the promise keeps its outcome. *)
Lemma settled_step (st st' : @state json) (o : @outcome json) :
  STEP st st' -> settled st = Some o -> settled st' = Some o.
Proof.
  intros [st0 k p e rest Hp He] Hs. unfold handle, tryPythonCommand, settle, set_proc.
  destruct e; cbn [settled]; try exact Hs.
  - destruct (Nat.leb _ _); cbn [settled]; rewrite Hs; reflexivity.
  - rewrite Hs. reflexivity.
Qed.

Lemma settled_star (st st' : @state json) (o : @outcome json) :
  STAR st st' -> settled st = Some o -> settled st' = Some o.
Proof. induction 1; eauto using settled_step. Qed.

Lemma count_error_suffix (st : @state json) (k : nat) (p : proc) :
  INV st -> nth_error (procs st) k = Some p ->
  count_error (p_events p) <= count_error (env (p_cmd p)).
Proof.
  intros [_ [_ Hall]] Hp. destruct (Hall k p Hp) as [_ [_ [pre [Hpre _]]]].
  rewrite <- Hpre, count_error_app. lia.
Qed.

Lemma close_action_not_notInstalled (out err : string) (c : option Z) :
  close_action json_parse out err c <> Rejected notInstalled.
Proof.
  unfold close_action. destruct c as [[|z|z]|]; try destruct (json_parse out);
    intros H; discriminate H.
Qed.

Lemma inv_retry_set (st : @state json) (k : nat) (p : proc) (e : event)
    (rest : list event) (out err : string) (s' : option (@outcome json)) :
  RETRY st -> nth_error (procs st) k = Some p -> p_events p = e :: rest ->
  is_error e = false ->
  (s' = Some (Rejected notInstalled) -> settled st = Some (Rejected notInstalled)) ->
  RETRY (mkState s' (set_nth k (with_events p rest out err) (procs st))).
Proof.
  intros [HA HB] Hp He Her Hs.
  assert (Hq : forall j q, nth_error (set_nth k (with_events p rest out err) (procs st)) j = Some q ->
            exists q0, nth_error (procs st) j = Some q0 /\ (errored env q <-> errored env q0)).
  { intros j q Hj. rewrite nth_error_set_nth in Hj. destruct (Nat.eqb_spec j k) as [->|_].
    - rewrite Hp in Hj. inversion Hj; subst q. exists p. split; [exact Hp|].
      unfold errored. cbn. rewrite He. unfold count_error. simpl. rewrite Her. reflexivity.
    - exists q. split; [exact Hj | reflexivity]. }
  split; cbn [procs settled]; rewrite length_set_nth.
  - intros j q Hj Hl. destruct (Hq j q Hj) as [q0 [Hj0 Hiff]]. apply Hiff. exact (HA j q0 Hj0 Hl).
  - intros H. destruct (HB (Hs H)) as [H1 H2]. split; [exact H1|].
    intros j q Hj. destruct (Hq j q Hj) as [q0 [Hj0 Hiff]]. apply Hiff. exact (H2 j q0 Hj0).
Qed.

Lemma inv_retry_step (st st' : @state json) : STEP st st' -> INV st -> RETRY st -> RETRY st'.
Proof.
  intros Hstep Hinv Hr. destruct Hstep as [st0 k p e rest Hp He].
  pose proof (count_error_suffix st0 k p Hinv Hp) as Hsuf.
  unfold handle. destruct e as [chunk|chunk| |c].
  - apply (inv_retry_set _ _ _ _ _ _ _ _ Hr Hp He); [reflexivity | intros H; exact H].
  - apply (inv_retry_set _ _ _ _ _ _ _ _ Hr Hp He); [reflexivity | intros H; exact H].
  - destruct Hinv as [Hlen [Hnil Hall]]. destruct Hr as [HA HB].
    destruct (Hall k p Hp) as [Hi [_ [pre [_ [_ [_ Hlast]]]]]].
    assert (Hk : length (procs st0) = S k).
    { assert (k < length (procs st0)) by (apply nth_error_Some; rewrite Hp; discriminate).
      destruct (Nat.lt_ge_cases (S k) (length (procs st0))) as [H'|H']; [|lia].
      specialize (Hlast H'). rewrite He in Hlast. unfold count_error in Hlast.
      simpl in Hlast. discriminate Hlast. }
    set (q := with_events p rest (p_stdout p) (p_stderr p)).
    assert (Hall1 : forall j q', nth_error (set_nth k q (procs st0)) j = Some q' -> errored env q').
    { intros j q' Hj. rewrite nth_error_set_nth in Hj. destruct (Nat.eqb_spec j k) as [->|Hjk].
      - rewrite Hp in Hj. inversion Hj; subst q'. unfold errored, q. cbn.
        rewrite He in Hsuf. unfold count_error in *. simpl in Hsuf. lia.
      - apply (HA j q' Hj). assert (j < length (procs st0)) by (apply nth_error_Some; rewrite Hj; discriminate).
        lia. }
    rewrite Hi. unfold tryPythonCommand, set_proc. cbn [procs settled].
    destruct (Nat.leb_spec (length commands) (k + 1)) as [Hc1|Hc1].
    + unfold settle. cbn [settled procs].
      assert (Hr' : forall s', (s' = Some (Rejected notInstalled) ->
                     length (set_nth k q (procs st0)) = length commands) ->
                RETRY (mkState s' (set_nth k q (procs st0)))).
      { intros s' Hs'. split; cbn [procs settled].
        - intros j q' Hj _. exact (Hall1 j q' Hj).
        - intros H. split; [exact (Hs' H) | exact Hall1]. }
      destruct (settled st0) as [o|] eqn:Eo; apply Hr'; rewrite length_set_nth, Hk; intros _; lia.
    + split; cbn [procs settled].
      * intros j q' Hj Hl. rewrite length_app, length_set_nth, Hk in Hl. simpl in Hl.
        destruct (Nat.lt_ge_cases j (S k)) as [Hjk|Hjk].
        -- rewrite nth_error_app1 in Hj by (rewrite length_set_nth; lia). exact (Hall1 j q' Hj).
        -- lia.
      * intros H. destruct (HB H) as [H1 _]. lia.
  - unfold settle, set_proc. cbn [settled procs]. destruct (settled st0) as [o|] eqn:Eo.
    + apply (inv_retry_set _ _ _ _ _ _ _ _ Hr Hp He); [reflexivity | intros H; rewrite Eo; exact H].
    + apply (inv_retry_set _ _ _ _ _ _ _ _ Hr Hp He); [reflexivity|].
      intros H. inversion H as [H1]. exfalso. exact (close_action_not_notInstalled _ _ _ H1).
Qed.

Lemma inv_retry_star (st st' : @state json) : STAR st st' -> INV st -> RETRY st -> RETRY st'.
Proof.
  induction 1 as [|st1 st2 st3 Hs Hst IH]; intros Hi Hr; [exact Hr|].
  apply IH; [exact (inv_step _ _ Hs Hi) | exact (inv_retry_step _ _ Hs Hi Hr)].
Qed.

Lemma inv_retry_init : RETRY (TRY 0 (mkState None [])).
Proof.
  unfold inv_retry, tryPythonCommand. destruct (Nat.leb_spec (length commands) 0) as [H|H].
  - rewrite procs_settle. cbn [procs length]. split; [intros k p Hk; destruct k; discriminate Hk|].
    intros _. split; [lia | intros k p Hk; destruct k; discriminate Hk].
  - cbn [procs settled app length]. split; [intros [|k] p _ Hl; lia | intros Hs; discriminate Hs].
Qed.

Lemma settled_some (o : @outcome json) (st : @state json) : settled (settle o st) <> None.
Proof. unfold settle. destruct (settled st) eqn:E; cbn [settled]; [rewrite E|]; intros H; discriminate H. Qed.

Lemma inv_advance_set (st : @state json) (k : nat) (p : proc) (e : event)
    (rest : list event) (out err : string) (s' : option (@outcome json)) :
  ADVANCE st -> nth_error (procs st) k = Some p -> p_events p = e :: rest ->
  is_error e = false -> (settled st <> None -> s' <> None) ->
  ADVANCE (mkState s' (set_nth k (with_events p rest out err) (procs st))).
Proof.
  intros Hadv Hp He Her Hs j q Hj Hq. cbn [procs settled] in *. rewrite length_set_nth.
  rewrite nth_error_set_nth in Hj. destruct (Nat.eqb_spec j k) as [->|_].
  - rewrite Hp in Hj. inversion Hj; subst q. clear Hj.
    assert (Hp' : errored env p).
    { unfold errored in *. cbn in Hq. rewrite He. unfold count_error in *. simpl. rewrite Her. exact Hq. }
    destruct (Hadv k p Hp Hp') as [H|[H1 H2]]; [left; exact H | right; auto].
  - destruct (Hadv j q Hj Hq) as [H|[H1 H2]]; [left; exact H | right; auto].
Qed.

Lemma inv_advance_step (st st' : @state json) : STEP st st' -> INV st -> ADVANCE st -> ADVANCE st'.
Proof.
  intros Hstep Hinv Hadv. destruct Hstep as [st0 k p e rest Hp He].
  pose proof (count_error_suffix st0 k p Hinv Hp) as Hsuf.
  assert (Hkl : k < length (procs st0)) by (apply nth_error_Some; rewrite Hp; discriminate).
  unfold handle. destruct e as [chunk|chunk| |c].
  - apply (inv_advance_set _ _ _ _ _ _ _ _ Hadv Hp He); [reflexivity | intros H; exact H].
  - apply (inv_advance_set _ _ _ _ _ _ _ _ Hadv Hp He); [reflexivity | intros H; exact H].
  - destruct Hinv as [Hlen [_ Hall]].
    destruct (Hall k p Hp) as [Hi _].
    set (q := with_events p rest (p_stdout p) (p_stderr p)).
    rewrite Hi. unfold tryPythonCommand, set_proc. cbn [procs settled].
    destruct (Nat.leb_spec (length commands) (k + 1)) as [Hc1|Hc1].
    + intros j q' Hj _. rewrite procs_settle in *. cbn [procs] in *.
      assert (j < length (set_nth k q (procs st0)))
        as Hjl by (apply nth_error_Some; rewrite Hj; discriminate).
      rewrite length_set_nth in *.
      destruct (Nat.lt_ge_cases (S j) (length (procs st0))) as [Hl|Hl]; [left; exact Hl|].
      right. split; [lia | apply settled_some].
    + intros j q' Hj Hq. cbn [procs settled] in *. rewrite length_app, length_set_nth. cbn [length].
      destruct (Nat.lt_ge_cases j (length (procs st0))) as [Hjl|Hjl].
      * rewrite nth_error_app1 in Hj by (rewrite length_set_nth; exact Hjl).
        rewrite nth_error_set_nth in Hj. destruct (Nat.eqb_spec j k) as [->|Hjk]; [left; lia|].
        destruct (Hadv j q' Hj Hq) as [H|[H1 H2]]; [left; lia | right; auto].
      * rewrite nth_error_app2 in Hj by (rewrite length_set_nth; exact Hjl).
        rewrite length_set_nth in Hj.
        destruct (j - length (procs st0)) as [|i]; [|destruct i; discriminate Hj].
        inversion Hj; subst q'. unfold errored in Hq. cbn [p_events p_cmd] in Hq. exact (False_ind _ (Nat.lt_irrefl _ Hq)).
  - unfold settle, set_proc. cbn [settled procs].
    destruct (settled st0) as [o|] eqn:Eo;
      (apply (inv_advance_set _ _ _ _ _ _ _ _ Hadv Hp He); [reflexivity | intros _ H; discriminate H]).
Qed.

Lemma inv_advance_star (st st' : @state json) : STAR st st' -> INV st -> ADVANCE st -> ADVANCE st'.
Proof.
  induction 1 as [|st1 st2 st3 Hs Hst IH]; intros Hi Ha; [exact Ha|].
  apply IH; [exact (inv_step _ _ Hs Hi) | exact (inv_advance_step _ _ Hs Hi Ha)].
Qed.

Lemma inv_advance_init : ADVANCE (TRY 0 (mkState None [])).
Proof.
  unfold inv_advance, tryPythonCommand. destruct (Nat.leb_spec (length commands) 0) as [H|H].
  - rewrite procs_settle. intros k p Hk. destruct k; discriminate Hk.
  - cbn [procs settled app]. intros [|k] p Hk Hp; [|destruct k; discriminate Hk].
    inversion Hk; subst p. unfold errored in Hp. cbn [p_events p_cmd] in Hp. exact (False_ind _ (Nat.lt_irrefl _ Hp)).
Qed.

End Facts.

Lemma stdin_ok_analyzeCode {json} (json_parse : string -> option json) env
    detectorPath code language :
  stdin_ok (json := json) code language (analyzeCode env detectorPath code language).
Proof. apply stdin_ok_try. intros k p Hk. destruct k; discriminate Hk. Qed.

Lemma all_done_terminal {json} (st : @state json) : all_done st = true -> terminal st.
Proof.
  unfold all_done, terminal. intros H k p Hk.
  apply nth_error_In in Hk. rewrite forallb_forall in H. specialize (H p Hk).
  destruct (p_events p); [reflexivity | discriminate H].
Qed.

(** C10: along every behaviour of the event loop started by [analyzeCode]
    (children emitting ['error'] at most once each), the children spawned
    are the candidates [0, 1, ...] of the list, child [k] for index [k],
    so at most three are spawned; and once no child has an event left, if
    every child spawned emitted an ['error'] or a ['close'], the promise is
    settled. *)
Theorem tryPythonCommand_terminates {json} (json_parse : string -> option json)
    (env : string -> list event) (detectorPath code language : string)
    (single_error : forall c, count_error (env c) <= 1) (st : @state json)
    (Hreach : star json_parse env pythonCommands detectorPath code language
                (analyzeCode env detectorPath code language) st) :
  length (procs st) <= length pythonCommands /\
  (forall k p, nth_error (procs st) k = Some p ->
     p_index p = k /\ p_cmd p = nth k pythonCommands "") /\
  (terminal st ->
   (forall k p, nth_error (procs st) k = Some p ->
      0 < count_error (env (p_cmd p)) + count_close (env (p_cmd p))) ->
   settled st <> None).
Proof.
  pose proof (inv_star json_parse env pythonCommands detectorPath code language
                single_error _ _ Hreach
                (inv_init env pythonCommands detectorPath code language)) as Hinv.
  split; [apply Hinv|]. split.
  - intros k p Hk. destruct Hinv as [_ [_ Hall]]. destruct (Hall k p Hk) as [H1 [H2 _]]. auto.
  - apply (inv_terminal_settled env pythonCommands); assumption.
Qed.

Lemma tryPythonCommand_terminates_witness :
  (forall c, count_error (spawn_fails c) <= 1) /\
  star parse_empty_object spawn_fails pythonCommands "detector.py" "eval(x)" "python"
    (analyzeCode spawn_fails "detector.py" "eval(x)" "python")
    (run parse_empty_object spawn_fails pythonCommands "detector.py" "eval(x)" "python" 10
       (analyzeCode spawn_fails "detector.py" "eval(x)" "python")) /\
  terminal (run (json := string) parse_empty_object spawn_fails pythonCommands "detector.py" "eval(x)" "python" 10
       (analyzeCode spawn_fails "detector.py" "eval(x)" "python")) /\
  length (procs (run (json := string) parse_empty_object spawn_fails pythonCommands "detector.py" "eval(x)" "python" 10
       (analyzeCode spawn_fails "detector.py" "eval(x)" "python"))) = 3 /\
  settled (run parse_empty_object spawn_fails pythonCommands "detector.py" "eval(x)" "python" 10
       (analyzeCode spawn_fails "detector.py" "eval(x)" "python")) <> None.
Proof.
  assert (H1 : forall c, count_error (spawn_fails c) <= 1) by (intros c; reflexivity).
  assert (H2 := run_star parse_empty_object spawn_fails pythonCommands "detector.py" "eval(x)" "python" 10
       (analyzeCode spawn_fails "detector.py" "eval(x)" "python")).
  assert (H3 : terminal (run (json := string) parse_empty_object spawn_fails pythonCommands
       "detector.py" "eval(x)" "python" 10 (analyzeCode spawn_fails "detector.py" "eval(x)" "python")))
    by (apply all_done_terminal; vm_compute; reflexivity).
  split; [exact H1|]. split; [exact H2|]. split; [exact H3|]. split; [vm_compute; reflexivity|].
  apply (proj2 (proj2 (tryPythonCommand_terminates parse_empty_object spawn_fails
                  "detector.py" "eval(x)" "python" H1 _ H2)) H3).
  intros k p _. unfold count_error, count_close, spawn_fails, spawn_failure. simpl. lia.
Defined.

(** C6: every child spawned for an analysis request receives exactly one
    write on its stdin, [JSON.stringify({ code, language })] (an object
    with exactly the fields [code] and [language]), followed by the end of
    the stream. *)
Theorem analyzeCode_writes_one_request {json} (json_parse : string -> option json)
    (env : string -> list event) (detectorPath code language : string)
    (st : @state json)
    (Hreach : star json_parse env pythonCommands detectorPath code language
                (analyzeCode env detectorPath code language) st) :
  forall k p, nth_error (procs st) k = Some p ->
    p_stdin p =
      [StdinWrite (stringify (JVObj [("code", JVStr code); ("language", JVStr language)]));
       StdinEnd].
Proof.
  exact (stdin_ok_star json_parse env pythonCommands detectorPath code language _ _ Hreach
           (stdin_ok_analyzeCode json_parse env detectorPath code language)).
Qed.

Lemma analyzeCode_writes_one_request_witness :
  star parse_empty_object spawn_fails pythonCommands "detector.py" "eval(x)" "python"
    (analyzeCode spawn_fails "detector.py" "eval(x)" "python")
    (analyzeCode spawn_fails "detector.py" "eval(x)" "python") /\
  exists p, nth_error (procs (analyzeCode (json := string) spawn_fails "detector.py" "eval(x)" "python")) 0 = Some p /\
    p_stdin p = [StdinWrite (Html.lit "{`code`:`eval(x)`,`language`:`python`}"); StdinEnd].
Proof.
  assert (H : star parse_empty_object spawn_fails pythonCommands "detector.py" "eval(x)" "python"
    (analyzeCode spawn_fails "detector.py" "eval(x)" "python")
    (analyzeCode spawn_fails "detector.py" "eval(x)" "python")) by constructor.
  split; [exact H|].
  eexists. split; [reflexivity|].
  rewrite (analyzeCode_writes_one_request parse_empty_object spawn_fails "detector.py"
             "eval(x)" "python" _ H 0 _ eq_refl).
  vm_compute. reflexivity.
Defined.



(** C4 does not hold: with [python] missing and [python3] installed, the
    [python3] child writes a parsable payload and closes with 0, yet the
    caller is rejected: the ['close'] (-2) that Node emits after the
    failed [python] spawn settled the promise before. *)
Theorem python3_success_is_rejected :
  star parse_empty_object only_python3 pythonCommands "detector.py" "eval(x)" "python"
    (analyzeCode only_python3 "detector.py" "eval(x)" "python") run_only_python3 /\
  terminal run_only_python3 /\
  map (fun p => (p_cmd p, p_stdout p)) (procs run_only_python3) =
    [("python", ""); ("python3", "{}")] /\
  In (EvClose (Some 0%Z)) (only_python3 "python3") /\
  parse_empty_object "{}" = Some "{}" /\
  settled run_only_python3 = Some (Rejected "Detector exited with code -2: ").
Proof.
  split; [apply run_star|]. split; [apply all_done_terminal; vm_compute; reflexivity|].
  split; [vm_compute; reflexivity|]. split; [simpl; auto|].
  split; vm_compute; reflexivity.
Qed.

End LauncherFacts.

(* ------------------------------------------------------------------ *)
(** ** Facts about the command handler *)
Module ActivateFacts.
Import Js Activate.

(** A language id that is neither mapped nor inherited is refused. *)
Lemma ruby_is_refused :
  analyzeCommand (Some (mkEditor "eval(x)" "ruby")) =
  ShowWarningMessage (Html.lit "Language `ruby` is not supported. Only Python and JavaScript are currently supported.").
Proof. vm_compute. reflexivity. Qed.

(** C1 does not hold: [languageMap[languageId]] also finds the properties
    every object inherits from [Object.prototype]; for the language id
    ["constructor"] the lookup yields the [Object] function, which is
    truthy, so no warning is shown and [analyzeCode] is called with a
    language outside {python, javascript}. *)
Theorem constructor_language_runs_engine :
  analyzeCommand (Some (mkEditor "eval(x)" "constructor")) =
    AnalyzeCode "eval(x)" (JFun "Object") /\
  supported (JFun "Object") = false.
Proof. split; vm_compute; reflexivity. Qed.

End ActivateFacts.

(* ------------------------------------------------------------------ *)
(** ** Facts about the detector engine (modelled from the spec) *)
Module EngineFacts.
Import Js Html HtmlObs Engine.

Lemma cand_leb_total (a b : candidate) : cand_leb a b = false -> cand_leb b a = true.
Proof.
  unfold cand_leb.
  destruct (Nat.ltb_spec (sev_rank (c_severity b)) (sev_rank (c_severity a)));
  destruct (Nat.ltb_spec (sev_rank (c_severity a)) (sev_rank (c_severity b)));
  destruct (Nat.eqb_spec (sev_rank (c_severity a)) (sev_rank (c_severity b)));
  destruct (Nat.eqb_spec (sev_rank (c_severity b)) (sev_rank (c_severity a)));
  destruct (Nat.ltb_spec (first_line a) (first_line b));
  destruct (Nat.ltb_spec (first_line b) (first_line a));
  destruct (Nat.eqb_spec (first_line a) (first_line b));
  destruct (Nat.eqb_spec (first_line b) (first_line a));
  destruct (Nat.leb_spec (c_rule a) (c_rule b));
  destruct (Nat.leb_spec (c_rule b) (c_rule a));
  simpl; intros Hf; try discriminate; try reflexivity; lia.
Qed.

Local Abbreviation ordered := (LocallySorted (fun a b => cand_leb a b = true)).

Lemma insert_head (c d : candidate) (l : list candidate) :
  exists t, insert c (d :: l) = c :: t \/ insert c (d :: l) = d :: t.
Proof. simpl. destruct (cand_leb c d); eexists; [left | right]; reflexivity. Qed.

Lemma insert_ordered (c : candidate) (l : list candidate) :
  ordered l -> ordered (insert c l).
Proof.
  induction 1 as [|a|a b l Hs IH Hab].
  - constructor.
  - simpl. destruct (cand_leb c a) eqn:E.
    + constructor; [constructor | exact E].
    + constructor; [constructor | apply cand_leb_total, E].
  - cbn [insert]. destruct (cand_leb c a) eqn:E.
    + constructor; [constructor; assumption | exact E].
    + cbn [insert] in IH |- *. destruct (cand_leb c b) eqn:E2.
      * constructor; [exact IH | apply cand_leb_total, E].
      * constructor; [exact IH | exact Hab].
Qed.

Lemma sort_ordered (l : list candidate) : ordered (sort l).
Proof. induction l as [|c l IH]; simpl; [constructor | apply insert_ordered, IH]. Qed.

Lemma insert_perm (c : candidate) (l : list candidate) : Permutation (insert c l) (c :: l).
Proof.
  induction l as [|d l IH]; simpl; [reflexivity|].
  destruct (cand_leb c d); [reflexivity|].
  rewrite IH. apply perm_swap.
Qed.

Lemma sort_perm (l : list candidate) : Permutation (sort l) l.
Proof.
  induction l as [|c l IH]; simpl; [reflexivity|].
  rewrite insert_perm, IH. reflexivity.
Qed.

(** C7 (modelled from the spec): the findings of an analysis are the
    rendering of the surviving candidates (each carrying the declaration
    index of its rule, [c_rule]), all of them and each once, in an order
    where every finding comes before the next by severity descending, then
    first line ascending, then rule declaration order ([cand_leb]). *)
Theorem analyze_sorted (catalog : list rule) (code language : string) (r : response)
    (Hanswer : analyze catalog code language = Answer r) :
  exists cs, Permutation cs (dedup (candidates catalog code language)) /\
    results r = Some (map render cs) /\
    LocallySorted (fun a b => cand_leb a b = true) cs.
Proof.
  unfold analyze in Hanswer. destruct (existsb _ _); [|discriminate Hanswer].
  inversion Hanswer; subst r. simpl. eexists.
  split; [apply sort_perm|]. split; [reflexivity | apply sort_ordered].
Qed.

Lemma analyze_sorted_witness :
  analyze sample_catalog "x = pickle.loads(d)
eval(x)" "python" =
    Answer (mkResponse "python"
      (Some [mkFinding "Code Injection" "Critical" (Some [2%Z]) "Use of eval(" "ast.literal_eval(...)";
             mkFinding "Insecure Deserialization" "High" (Some [1%Z]) "Use of pickle.loads(" "json.loads(...)"])) /\
  exists cs, Some [mkFinding "Code Injection" "Critical" (Some [2%Z]) "Use of eval(" "ast.literal_eval(...)";
             mkFinding "Insecure Deserialization" "High" (Some [1%Z]) "Use of pickle.loads(" "json.loads(...)"] =
             Some (map render cs) /\ LocallySorted (fun a b => cand_leb a b = true) cs.
Proof.
  assert (H : analyze sample_catalog "x = pickle.loads(d)
eval(x)" "python" =
    Answer (mkResponse "python"
      (Some [mkFinding "Code Injection" "Critical" (Some [2%Z]) "Use of eval(" "ast.literal_eval(...)";
             mkFinding "Insecure Deserialization" "High" (Some [1%Z]) "Use of pickle.loads(" "json.loads(...)"])))
    by (vm_compute; reflexivity).
  split; [exact H|].
  destruct (analyze_sorted _ _ _ _ H) as [cs [_ Hcs]]. exists cs. exact Hcs.
Defined.

End EngineFacts.

(* ------------------------------------------------------------------ *)
(** ** More facts about the two results panels *)
Module PanelFacts.
Import Js Html OldHtml HtmlObs HtmlFacts.

Lemma str_app_assoc (a b c : string) : (a ++ b) ++ c = a ++ (b ++ c).
Proof. induction a as [|x a IH]; simpl; [reflexivity | rewrite IH; reflexivity]. Qed.

Lemma str_app_nil_r (a : string) : a ++ "" = a.
Proof. induction a as [|x a IH]; simpl; [reflexivity | rewrite IH; reflexivity]. Qed.

Lemma replace_all_app (c : ascii) (r s t : string) :
  replace_all c r (s ++ t) = replace_all c r s ++ replace_all c r t.
Proof.
  induction s as [|d s IH]; simpl; [reflexivity|].
  destruct (Ascii.eqb d c); rewrite IH; [rewrite str_app_assoc|]; reflexivity.
Qed.

(** [escapeHtml] works character by character. *)
Lemma escapeHtml_app (s t : string) : escapeHtml (s ++ t) = escapeHtml s ++ escapeHtml t.
Proof. unfold escapeHtml. rewrite !replace_all_app. reflexivity. Qed.

Lemma unescape_escape_char (d : ascii) (t : string) :
  html_unescape (escapeHtml (String d EmptyString) ++ t) = String d (html_unescape t).
Proof.
  destruct (Ascii.eqb_spec d "&"%char) as [->|H1]; [reflexivity|].
  destruct (Ascii.eqb_spec d "<"%char) as [->|H2]; [reflexivity|].
  destruct (Ascii.eqb_spec d ">"%char) as [->|H3]; [reflexivity|].
  destruct (Ascii.eqb_spec d dq) as [->|H4]; [reflexivity|].
  destruct (Ascii.eqb_spec d "'"%char) as [->|H5]; [reflexivity|].
  apply Ascii.eqb_neq in H1, H2, H3, H4, H5.
  unfold escapeHtml. cbn [replace_all]. rewrite H1. cbn [replace_all]. rewrite H2.
  cbn [replace_all]. rewrite H3. cbn [replace_all]. rewrite H4. cbn [replace_all].
  rewrite H5. cbn [append html_unescape]. rewrite H1. reflexivity.
Qed.

Lemma occurs_app_l (x a s : string) : occurs x s -> occurs x (a ++ s).
Proof.
  intros [pre [post ->]]. exists (a ++ pre), post. rewrite str_app_assoc. reflexivity.
Qed.

Lemma occurs_app_r (x s b : string) : occurs x s -> occurs x (s ++ b).
Proof.
  intros [pre [post ->]]. exists pre, (post ++ b). rewrite !str_app_assoc. reflexivity.
Qed.

Lemma occurs_refl (x : string) : occurs x x.
Proof. exists "", "". simpl. rewrite str_app_nil_r. reflexivity. Qed.

Lemma occurs_trans (x y s : string) : occurs x y -> occurs y s -> occurs x s.
Proof.
  intros [p1 [q1 ->]] [p2 [q2 ->]]. exists (p2 ++ p1), (q1 ++ q2).
  rewrite !str_app_assoc. reflexivity.
Qed.

Lemma cards_nth (vs : list finding) (i0 n i : nat) (v : finding) :
  nth_error vs i = Some v -> occurs (card v (i0 + i) n) (cards i0 n vs).
Proof.
  revert i0 i. induction vs as [|w vs IH]; intros i0 [|i] H; simpl in H; try discriminate.
  - inversion H; subst w. cbn [cards]. rewrite Nat.add_0_r. apply occurs_app_r, occurs_refl.
  - cbn [cards]. apply occurs_app_l. replace (i0 + S i) with (S i0 + i) by lia.
    apply IH, H.
Qed.

Lemma count_special_oldStatus (r : flat_result) :
  count_special (oldStatusIcon r) + count_special (oldStatusText r) = 0.
Proof.
  unfold oldStatusIcon, oldStatusText.
  destruct (isVulnerable r); [reflexivity|].
  destruct (strict_eq_str _ _); reflexivity.
Qed.

Lemma count_special_oldGetResultsHtml (r : flat_result) :
  count_special (oldGetResultsHtml r) =
  count_special old_0 + count_special old_1 + count_special old_2 + count_special old_3 +
  count_special old_4 + count_special old_5 + count_special old_6 + count_special old_7 +
  count_special old_8 + count_special old_9 + count_special old_10.
Proof.
  pose proof (count_special_oldStatus r).
  unfold oldGetResultsHtml, oldSeverityColor, escField.
  rewrite !count_special_app, !count_special_severityColor, !count_special_escapeHtml. lia.
Qed.

(** X1: [escapeHtml] loses nothing: the webview, decoding the character
    references, shows exactly the original string (the ampersand is
    replaced first, so no reference is escaped twice); hence two different
    strings are never rendered the same. *)
Theorem escapeHtml_round_trip :
  (forall s : string, html_unescape (escapeHtml s) = s) /\
  (forall s t : string, escapeHtml s = escapeHtml t -> s = t).
Proof.
  assert (H : forall s : string, html_unescape (escapeHtml s) = s).
  { induction s as [|d t IH]; [reflexivity|].
    change (String d t) with (String d EmptyString ++ t).
    rewrite escapeHtml_app, unescape_escape_char, IH. reflexivity. }
  split; [exact H|]. intros s t E. rewrite <- (H s), <- (H t), E. reflexivity.
Qed.

(** X2: in the older panel the number of markup characters ([<], [>],
    quotes) of the page is the same for every detector response: no field
    of the response (vulnerability, severity, explanation, patch, whatever
    its type) can add or remove markup. *)
Theorem oldGetResultsHtml_markup_fixed (r r' : flat_result) :
  count_special (oldGetResultsHtml r) = count_special (oldGetResultsHtml r').
Proof. rewrite !count_special_oldGetResultsHtml. reflexivity. Qed.

(** X3: the older panel reads the flat fields [vulnerability], [severity],
    ...; a response without a top-level [vulnerability] (the
    [{language, results}] shape, even with no findings) is reported as
    "Vulnerability Detected", with the text "undefined" as the
    vulnerability's name. *)
Theorem old_panel_missing_vulnerability (sev expl ptch : jsval) :
  isVulnerable (mkFlat JUndefined sev expl ptch) = true /\
  occurs (old_5 ++ "Vulnerability Detected" ++ old_6 ++ "undefined" ++ old_7)
    (oldGetResultsHtml (mkFlat JUndefined sev expl ptch)).
Proof.
  split; [reflexivity|].
  unfold oldGetResultsHtml. cbn [f_vulnerability]. unfold oldStatusText, escField.
  cbn [isVulnerable strict_eq_str negb andb to_str].
  change (escapeHtml "undefined") with "undefined".
  do 10 apply occurs_app_l. rewrite <- !str_app_assoc.
  repeat (first [apply occurs_refl | apply occurs_app_r]).
Qed.

(** X4: the newer panel renders every finding of a non-empty [results]
    array, whatever the first one is: finding [i] gets its card (name,
    location, severity, explanation and fix), and when there are several
    findings that card is numbered "Issue i+1 of n". *)
Theorem every_finding_has_card (r : response) (i : nat) (v : finding)
    (Hv : nth_error (results_of r) i = Some v) :
  occurs (card v i (length (results_of r))) (getResultsHtml r) /\
  (1 < length (results_of r) ->
   occurs (issue_0 ++ nat_str (i + 1) ++ issue_1 ++ nat_str (length (results_of r)) ++ issue_2)
     (getResultsHtml r)).
Proof.
  assert (Hc : occurs (card v i (length (results_of r))) (getResultsHtml r)).
  { unfold getResultsHtml. do 7 apply occurs_app_l. apply occurs_app_r.
    unfold cardsHtml. rewrite cards_shown.
    destruct (results_of r) as [|w ws] eqn:E; [destruct i; discriminate Hv|].
    simpl negb. cbv iota. apply (cards_nth (w :: ws) 0 _ i v Hv). }
  split; [exact Hc|]. intros Hn. eapply occurs_trans; [|exact Hc].
  unfold card. cbv zeta. apply occurs_app_l.
  apply Nat.ltb_lt in Hn. rewrite Hn. rewrite <- str_app_assoc. apply occurs_app_r.
  apply occurs_refl.
Qed.

Lemma every_finding_has_card_witness :
  nth_error (results_of (mkResponse "python"
    (Some [mkFinding "SQL Injection" "High" (Some [3%Z]) "query built by concatenation" "use parameters";
           mkFinding "Code Injection" "Critical" (Some [7%Z; 9%Z]) "eval of input" "ast.literal_eval"]))) 1 =
    Some (mkFinding "Code Injection" "Critical" (Some [7%Z; 9%Z]) "eval of input" "ast.literal_eval") /\
  occurs (issue_0 ++ "2" ++ issue_1 ++ "2" ++ issue_2)
    (getResultsHtml (mkResponse "python"
      (Some [mkFinding "SQL Injection" "High" (Some [3%Z]) "query built by concatenation" "use parameters";
             mkFinding "Code Injection" "Critical" (Some [7%Z; 9%Z]) "eval of input" "ast.literal_eval"]))).
Proof.
  split; [reflexivity|].
  exact (proj2 (every_finding_has_card (mkResponse "python"
    (Some [mkFinding "SQL Injection" "High" (Some [3%Z]) "query built by concatenation" "use parameters";
           mkFinding "Code Injection" "Critical" (Some [7%Z; 9%Z]) "eval of input" "ast.literal_eval"])) 1
    (mkFinding "Code Injection" "Critical" (Some [7%Z; 9%Z]) "eval of input" "ast.literal_eval")
    eq_refl) ltac:(simpl; lia)).
Defined.

End PanelFacts.

(* ------------------------------------------------------------------ *)
(** ** More facts about the launcher and the progress task *)
Module RunFacts.
Import Js Html Launcher LauncherObs LauncherFacts Panel PanelFacts.

Lemma stdout_of_app (a b : list event) : stdout_of (a ++ b) = stdout_of a ++ stdout_of b.
Proof.
  induction a as [|[x|x| |x] a IH]; simpl; try rewrite IH; try rewrite str_app_assoc; reflexivity.
Qed.

Lemma stderr_of_app (a b : list event) : stderr_of (a ++ b) = stderr_of a ++ stderr_of b.
Proof.
  induction a as [|[x|x| |x] a IH]; simpl; try rewrite IH; try rewrite str_app_assoc; reflexivity.
Qed.

(** The last event of [l ++ [y]], [l] all data, is the only non-data one. *)
Lemma split_at_non_data (pre rest l : list event) (x y : event) :
  forallb is_data l = true -> is_data x = false ->
  (pre ++ x :: rest)%list = (l ++ [y])%list -> pre = l /\ x = y /\ rest = [].
Proof.
  revert l. induction pre as [|a pre IH]; intros l Hl Hx E.
  - destruct l as [|b l]; simpl in E; inversion E; subst; [auto|].
    simpl in Hl. rewrite Hx in Hl. discriminate.
  - destruct l as [|b l]; simpl in E; inversion E; subst.
    + destruct pre; discriminate.
    + simpl in Hl. apply andb_true_iff in Hl as [_ Hl].
      destruct (IH l Hl Hx H1) as [-> [-> ->]]. auto.
Qed.

Lemma set_nth_single {A} (x y : A) : set_nth 0 y [x] = [y].
Proof. reflexivity. Qed.

Section Run.
Context {json : Type} (json_parse : string -> option json)
        (env : string -> list event) (detectorPath code language : string).

Local Abbreviation STEP := (step json_parse env pythonCommands detectorPath code language).
Local Abbreviation STAR := (star json_parse env pythonCommands detectorPath code language).
Local Abbreviation FIRST := (first_only (json := json) env pythonCommands detectorPath).

Lemma first_only_init :
  FIRST (analyzeCode env detectorPath code language).
Proof.
  exists (mkProc "python" [detectorPath] 0 (env "python") "" ""
            [StdinWrite (input code language); StdinEnd]), [].
  repeat split.
Qed.

Lemma first_only_with (o : option (@outcome json)) (p : proc) (pre : list event)
    (e : event) (rest : list event) (out err : string) :
  p_cmd p = nth 0 pythonCommands "" -> p_args p = [detectorPath] -> p_index p = 0 ->
  (pre ++ p_events p)%list = env (p_cmd p) -> p_events p = e :: rest ->
  FIRST (mkState o [with_events p rest out err]).
Proof.
  intros Hc Ha Hi Hpre He. exists (with_events p rest out err), (pre ++ [e])%list.
  cbn. split; [reflexivity|]. split; [exact Hc|]. split; [exact Ha|]. split; [exact Hi|].
  rewrite <- app_assoc. simpl. rewrite <- He. exact Hpre.
Qed.

Lemma first_only_step (st st' : @state json) :
  count_error (env "python") = 0 -> STEP st st' -> FIRST st -> FIRST st'.
Proof.
  intros Hno [st0 k q e rest Hq He] [p [pre [Hp [Hc [Ha [Hi Hpre]]]]]].
  rewrite Hp in Hq. destruct k as [|k]; [|destruct k; discriminate Hq].
  inversion Hq; subst q. clear Hq.
  unfold handle, set_proc. rewrite Hp. destruct e as [ch|ch| |c].
  - eapply first_only_with; eauto.
  - eapply first_only_with; eauto.
  - exfalso. rewrite Hc in Hpre. simpl in Hpre.
    rewrite <- Hpre, count_error_app, He in Hno. unfold count_error in Hno. simpl in Hno. lia.
  - unfold settle. cbn [settled procs].
    destruct (settled st0); eapply first_only_with; eauto.
Qed.

Lemma first_only_star (st st' : @state json) :
  count_error (env "python") = 0 -> STAR st st' -> FIRST st -> FIRST st'.
Proof. intros Hno. induction 1; eauto using first_only_step. Qed.

Section Progress.
Variable (l : list event) (c : option Z).
Hypothesis Henv : env "python" = (l ++ [EvClose c])%list.
Hypothesis Hdata : forallb is_data l = true.

Local Abbreviation PROGRESS := (first_progress json_parse l c).

Lemma first_progress_init : PROGRESS (analyzeCode env detectorPath code language).
Proof.
  exists (mkProc "python" [detectorPath] 0 (env "python") "" ""
            [StdinWrite (input code language); StdinEnd]), [].
  split; [reflexivity|]. cbn [p_events p_stdout p_stderr app].
  split; [exact Henv|]. split; [reflexivity|]. split; [reflexivity|].
  left. split; [reflexivity|]. rewrite Henv. destruct l; discriminate.
Qed.

Lemma first_progress_step (st st' : @state json) : STEP st st' -> PROGRESS st -> PROGRESS st'.
Proof.
  intros [st0 k q e rest Hq He] [p [pre [Hp [Hpre [Ho [Hr Hs]]]]]].
  rewrite Hp in Hq. destruct k as [|k]; [|destruct k; discriminate Hq].
  inversion Hq; subst q. clear Hq.
  destruct Hs as [[Hn _] | [Hnil _]]; [|rewrite He in Hnil; discriminate Hnil].
  rewrite He in Hpre.
  unfold handle, set_proc. rewrite Hp. destruct e as [ch|ch| |c'].
  - exists (with_events p rest (p_stdout p ++ ch) (p_stderr p)), (pre ++ [EvStdout ch])%list.
    cbn. split; [reflexivity|]. split; [rewrite <- app_assoc; exact Hpre|].
    split; [rewrite stdout_of_app, Ho; simpl; rewrite ?str_app_nil_r; reflexivity|].
    split; [rewrite stderr_of_app, Hr; simpl; rewrite ?str_app_nil_r; reflexivity|].
    left. split; [exact Hn|]. intros ->.
    apply app_inj_tail in Hpre as [_ H]. discriminate H.
  - exists (with_events p rest (p_stdout p) (p_stderr p ++ ch)), (pre ++ [EvStderr ch])%list.
    cbn. split; [reflexivity|]. split; [rewrite <- app_assoc; exact Hpre|].
    split; [rewrite stdout_of_app, Ho; simpl; rewrite ?str_app_nil_r; reflexivity|].
    split; [rewrite stderr_of_app, Hr; simpl; rewrite ?str_app_nil_r; reflexivity|].
    left. split; [exact Hn|]. intros ->.
    apply app_inj_tail in Hpre as [_ H]. discriminate H.
  - apply split_at_non_data in Hpre as [_ [H _]]; [discriminate H | exact Hdata | reflexivity].
  - apply split_at_non_data in Hpre as [Hpl [Hcc Hrest]]; [|exact Hdata|reflexivity].
    subst pre rest. inversion Hcc; subst c'. clear Hcc.
    unfold settle. cbn [settled]. rewrite Hn.
    exists (with_events p [] (p_stdout p) (p_stderr p)), (l ++ [EvClose c])%list.
    cbn. split; [reflexivity|]. split; [rewrite app_nil_r; reflexivity|].
    split; [rewrite stdout_of_app, Ho; simpl; rewrite ?str_app_nil_r; reflexivity|].
    split; [rewrite stderr_of_app, Hr; simpl; rewrite ?str_app_nil_r; reflexivity|].
    right. split; [reflexivity|]. rewrite Ho, Hr. reflexivity.
Qed.

(** Every state the event loop reaches from [analyzeCode]. *)
Lemma first_progress_reach (st : @state json) :
  STAR (analyzeCode env detectorPath code language) st -> PROGRESS st.
Proof.
  intros H. pose proof first_progress_init as H0. revert H0.
  induction H; eauto using first_progress_step.
Qed.

Lemma first_progress_terminal (st : @state json) :
  PROGRESS st -> terminal st ->
  settled st = Some (close_action json_parse (stdout_of l) (stderr_of l) c).
Proof.
  intros [p [pre [Hp [_ [_ [_ Hs]]]]]] Ht.
  specialize (Ht 0 p ltac:(rewrite Hp; reflexivity)).
  destruct Hs as [[_ Hne]|[_ Hs]]; [contradiction | exact Hs].
Qed.

End Progress.
End Run.

(** X5: once the first candidate [python] has started (Node reports no
    ['error'] for it), no other interpreter is ever tried, whatever the
    child does (a non-zero exit or a crash included): along every
    behaviour of the event loop the only child is [python], run with the
    detector path as its one argument. *)
Theorem started_python_never_retried {json} (json_parse : string -> option json)
    (env : string -> list event) (detectorPath code language : string)
    (Hstarted : count_error (env "python") = 0) (st : @state json)
    (Hreach : star json_parse env pythonCommands detectorPath code language
                (analyzeCode env detectorPath code language) st) :
  exists p, procs st = [p] /\ p_cmd p = "python" /\ p_args p = [detectorPath].
Proof.
  destruct (first_only_star json_parse env detectorPath code language _ _ Hstarted Hreach
              (first_only_init env detectorPath code language))
    as [p [pre [Hp [Hc [Ha _]]]]].
  exists p. auto.
Qed.

Lemma started_python_never_retried_witness :
  count_error ((fun _ : string => [EvStderr "Traceback"; EvClose (Some 1%Z)]) "python") = 0 /\
  star parse_empty_object (fun _ => [EvStderr "Traceback"; EvClose (Some 1%Z)])
    pythonCommands "detector.py" "eval(x)" "python"
    (analyzeCode (fun _ => [EvStderr "Traceback"; EvClose (Some 1%Z)]) "detector.py" "eval(x)" "python")
    (run parse_empty_object (fun _ => [EvStderr "Traceback"; EvClose (Some 1%Z)])
       pythonCommands "detector.py" "eval(x)" "python" 10
       (analyzeCode (fun _ => [EvStderr "Traceback"; EvClose (Some 1%Z)]) "detector.py" "eval(x)" "python")) /\
  exists p, procs (run parse_empty_object (fun _ => [EvStderr "Traceback"; EvClose (Some 1%Z)])
       pythonCommands "detector.py" "eval(x)" "python" 10
       (analyzeCode (fun _ => [EvStderr "Traceback"; EvClose (Some 1%Z)]) "detector.py" "eval(x)" "python"))
     = [p] /\ p_cmd p = "python" /\ p_args p = ["detector.py"].
Proof.
  assert (H1 : count_error ((fun _ : string => [EvStderr "Traceback"; EvClose (Some 1%Z)]) "python") = 0)
    by reflexivity.
  assert (H2 := run_star parse_empty_object (fun _ => [EvStderr "Traceback"; EvClose (Some 1%Z)])
       pythonCommands "detector.py" "eval(x)" "python" 10
       (analyzeCode (fun _ => [EvStderr "Traceback"; EvClose (Some 1%Z)]) "detector.py" "eval(x)" "python")).
  split; [exact H1|]. split; [exact H2|].
  exact (started_python_never_retried parse_empty_object _ "detector.py" "eval(x)" "python" H1 _ H2).
Defined.

(** X6: when [python] starts, sends data chunks [l] on stdout and stderr
    and then closes with exit code [c], the promise stays pending until
    that ['close'] and is then settled by the ['close'] listener from the
    stdout chunks and the stderr chunks, each concatenated in the order
    they came: resolved with the parsed stdout when [c] is 0 and it
    parses, rejected otherwise. In every state reached, [python] is the
    only child; it has emitted a prefix [pre] of its events, its buffers
    hold the chunks of [pre]; while events (so the ['close'], the last
    one) remain the promise is pending, and once none remains it is
    settled with that outcome. *)
Theorem first_candidate_outcome {json} (json_parse : string -> option json)
    (env : string -> list event) (detectorPath code language : string)
    (l : list event) (c : option Z)
    (Henv : env "python" = (l ++ [EvClose c])%list) (Hdata : forallb is_data l = true)
    (st : @state json)
    (Hreach : star json_parse env pythonCommands detectorPath code language
                (analyzeCode env detectorPath code language) st) :
  length (procs st) = 1 /\
  (settled st = None \/
   settled st = Some (close_action json_parse (stdout_of l) (stderr_of l) c)) /\
  (terminal st -> settled st = Some (close_action json_parse (stdout_of l) (stderr_of l) c)) /\
  (exists p pre, procs st = [p] /\ (pre ++ p_events p)%list = (l ++ [EvClose c])%list /\
     p_stdout p = stdout_of pre /\ p_stderr p = stderr_of pre /\
     (p_events p <> [] -> settled st = None) /\
     (p_events p = [] ->
      settled st = Some (close_action json_parse (stdout_of l) (stderr_of l) c))).
Proof.
  pose proof (first_progress_reach json_parse env detectorPath code language l c Henv Hdata
                st Hreach) as Hp.
  split; [destruct Hp as [p [pre [Hps _]]]; rewrite Hps; reflexivity|].
  split; [|split; [apply first_progress_terminal, Hp|]].
  - destruct Hp as [p [pre [_ [_ [_ [_ [[Hn _]|[_ Hs]]]]]]]]; [left | right]; assumption.
  - destruct Hp as [p [pre [Hps [Hpre [Ho [Hr Hs]]]]]].
    exists p, pre. split; [exact Hps|]. split; [exact Hpre|].
    split; [exact Ho|]. split; [exact Hr|].
    destruct Hs as [[Hn Hne]|[He Hs]]; split; intros H; auto; contradiction.
Qed.

Lemma first_candidate_outcome_witness :
  (fun _ : string => [EvStdout "{"; EvStderr "warn"; EvStdout "}"; EvClose (Some 0%Z)]) "python" =
    ([EvStdout "{"; EvStderr "warn"; EvStdout "}"] ++ [EvClose (Some 0%Z)])%list /\
  forallb is_data [EvStdout "{"; EvStderr "warn"; EvStdout "}"] = true /\
  settled (run parse_empty_object
             (fun _ => [EvStdout "{"; EvStderr "warn"; EvStdout "}"; EvClose (Some 0%Z)])
             pythonCommands "detector.py" "eval(x)" "python" 3
             (analyzeCode (fun _ => [EvStdout "{"; EvStderr "warn"; EvStdout "}"; EvClose (Some 0%Z)])
                "detector.py" "eval(x)" "python")) = None /\
  settled (run parse_empty_object
             (fun _ => [EvStdout "{"; EvStderr "warn"; EvStdout "}"; EvClose (Some 0%Z)])
             pythonCommands "detector.py" "eval(x)" "python" 10
             (analyzeCode (fun _ => [EvStdout "{"; EvStderr "warn"; EvStdout "}"; EvClose (Some 0%Z)])
                "detector.py" "eval(x)" "python")) = Some (Resolved "{}").
Proof.
  assert (H1 : (fun _ : string => [EvStdout "{"; EvStderr "warn"; EvStdout "}"; EvClose (Some 0%Z)]) "python" =
    ([EvStdout "{"; EvStderr "warn"; EvStdout "}"] ++ [EvClose (Some 0%Z)])%list) by reflexivity.
  assert (H2 : forallb is_data [EvStdout "{"; EvStderr "warn"; EvStdout "}"] = true) by reflexivity.
  split; [exact H1|]. split; [exact H2|]. split.
  - destruct (proj2 (proj2 (proj2 (first_candidate_outcome parse_empty_object _
                "detector.py" "eval(x)" "python" _ _ H1 H2 _ (run_star _ _ _ _ _ _ 3 _)))))
      as [p [pre [Hp [_ [_ [_ [Hpend _]]]]]]].
    apply Hpend. vm_compute in Hp. injection Hp as <-. discriminate.
  - rewrite (proj1 (proj2 (proj2 (first_candidate_outcome parse_empty_object _
               "detector.py" "eval(x)" "python" _ _ H1 H2 _ (run_star _ _ _ _ _ _ 10 _)))))
      by (apply all_done_terminal; vm_compute; reflexivity).
    vm_compute. reflexivity.
Defined.

(** X7: what the user finally sees when [python] starts, sends the data
    chunks [l] and closes with [c]: when the exit code is 0 and stdout
    parses, a results panel, holding the html of the parsed value, or, when
    [getResultsHtml] throws on it (stdout [null]), left empty with an
    error notification "Analysis failed: ..." carrying the [TypeError]'s
    message; otherwise only an error notification "Analysis failed: ..."
    carrying the unparsable stdout, or the exit code (["null"] for a child
    killed by a signal) and the stderr text. *)
Theorem analysis_notification {json} (json_parse : string -> option json)
    (render : json -> string + string)
    (env : string -> list event) (detectorPath code language : string)
    (l : list event) (c : option Z)
    (Henv : env "python" = (l ++ [EvClose c])%list) (Hdata : forallb is_data l = true)
    (st : @state json)
    (Hreach : star json_parse env pythonCommands detectorPath code language
                (analyzeCode env detectorPath code language) st)
    (Hdone : terminal st) :
  exists o, settled st = Some o /\
  progressTask render o =
    match c with
    | Some Z0 =>
        match json_parse (stdout_of l) with
        | Some result =>
            match render result with
            | inl html => [CreatePanel; SetPanelHtml html]
            | inr message => [CreatePanel; ShowError ("Analysis failed: " ++ message)]
            end
        | None => [ShowError ("Analysis failed: Failed to parse detector output: " ++ stdout_of l)]
        end
    | Some z => [ShowError ("Analysis failed: Detector exited with code " ++ z_str z ++ ": " ++ stderr_of l)]
    | None => [ShowError ("Analysis failed: Detector exited with code null: " ++ stderr_of l)]
    end.
Proof.
  exists (close_action json_parse (stdout_of l) (stderr_of l) c). split.
  - apply (first_progress_terminal json_parse l c); [|exact Hdone].
    exact (first_progress_reach json_parse env detectorPath code language l c Henv Hdata st Hreach).
  - unfold close_action. destruct c as [[|z|z]|]; [destruct (json_parse _)| | |]; reflexivity.
Qed.

Lemma analysis_notification_witness :
  (fun _ : string => [EvStdout "null"; EvClose (Some 0%Z)]) "python" =
    ([EvStdout "null"] ++ [EvClose (Some 0%Z)])%list /\
  forallb is_data [EvStdout "null"] = true /\
  exists o, settled (run (fun s => if String.eqb s "null" then Some PNull else None)
             (fun _ => [EvStdout "null"; EvClose (Some 0%Z)])
             pythonCommands "detector.py" "eval(x)" "python" 10
             (analyzeCode (fun _ => [EvStdout "null"; EvClose (Some 0%Z)])
                "detector.py" "eval(x)" "python")) = Some o /\
    progressTask renderParsed o =
      [CreatePanel;
       ShowError "Analysis failed: Cannot read properties of null (reading 'results')"].
Proof.
  assert (H1 : (fun _ : string => [EvStdout "null"; EvClose (Some 0%Z)]) "python" =
    ([EvStdout "null"] ++ [EvClose (Some 0%Z)])%list) by reflexivity.
  assert (H2 : forallb is_data [EvStdout "null"] = true) by reflexivity.
  split; [exact H1|]. split; [exact H2|].
  assert (H3 : terminal (run (fun s => if String.eqb s "null" then Some PNull else None)
             (fun _ => [EvStdout "null"; EvClose (Some 0%Z)])
             pythonCommands "detector.py" "eval(x)" "python" 10
             (analyzeCode (fun _ => [EvStdout "null"; EvClose (Some 0%Z)])
                "detector.py" "eval(x)" "python")))
    by (apply all_done_terminal; vm_compute; reflexivity).
  exact (analysis_notification (fun s => if String.eqb s "null" then Some PNull else None)
           renderParsed _ "detector.py" "eval(x)" "python" _ _ H1 H2 _
           (run_star _ _ _ _ _ _ 10 _) H3).
Defined.

End RunFacts.

(* ------------------------------------------------------------------ *)
(** ** More facts about the command handler *)
Module CommandFacts.
Import Js Activate.

Lemma trim_nonempty (s : string) : trim_is_empty s = false -> truthy (JStr s) = true.
Proof. destruct s; [discriminate | reflexivity]. Qed.

Lemma lookup_own (own : list (string * jsval)) (k : string) :
  ~ In k (map fst own) -> lookup own k = object_prototype_lookup k.
Proof.
  induction own as [|[k' v] own IH]; simpl; intros H; [reflexivity|].
  destruct (String.eqb_spec k k') as [->|_]; [exfalso; auto|]. apply IH. auto.
Qed.

(** X8: the command only goes on to [analyzeCode] with an active editor
    whose selection has a character other than white space; the code sent
    is the selected text unchanged and the language is the (truthy) value
    [languageMap] gives for the document's language id. *)
Theorem analyzeCommand_reaches_analysis (e : option editor) (code : string) (language : jsval)
    (H : analyzeCommand e = AnalyzeCode code language) :
  exists ed, e = Some ed /\ code = selectedText ed /\ code <> "" /\
    trim_is_empty code = false /\
    language = lookup languageMap (languageId ed) /\ truthy language = true.
Proof.
  destruct e as [ed|]; [|discriminate H]. unfold analyzeCommand in H.
  destruct (negb (truthy (JStr (selectedText ed))) || trim_is_empty (selectedText ed)) eqn:Es;
    [discriminate H|].
  apply orb_false_iff in Es as [Et Es].
  destruct (truthy (lookup languageMap (languageId ed))) eqn:El; cbn [negb] in H; [|discriminate H].
  inversion H; subst code language. exists ed.
  repeat split; try assumption.
  intros E. rewrite E in Es. discriminate Es.
Qed.

Lemma analyzeCommand_reaches_analysis_witness :
  analyzeCommand (Some (mkEditor "  eval(x)" "typescript")) = AnalyzeCode "  eval(x)" (JStr "javascript") /\
  exists ed, Some (mkEditor "  eval(x)" "typescript") = Some ed /\ "  eval(x)" = selectedText ed /\
    "  eval(x)" <> "" /\ trim_is_empty "  eval(x)" = false /\
    JStr "javascript" = lookup languageMap (languageId ed) /\ truthy (JStr "javascript") = true.
Proof.
  assert (H : analyzeCommand (Some (mkEditor "  eval(x)" "typescript")) =
              AnalyzeCode "  eval(x)" (JStr "javascript")) by (vm_compute; reflexivity).
  split; [exact H|]. exact (analyzeCommand_reaches_analysis _ _ _ H).
Defined.

(** X9: for a selection with some non-white-space character, the five
    VS Code language ids of [languageMap] are analysed, [python] as
    Python and the JavaScript and TypeScript ids (plain or React) as
    JavaScript; an id that is neither one of them nor a property name of
    [Object.prototype] gets the "is not supported" warning naming it, and
    no analysis. A selection made only of white space gets the error
    "Please select some code to analyze." whatever the language. *)
Theorem analyzeCommand_languages (ed : editor)
    (Hsel : trim_is_empty (selectedText ed) = false) :
  (In (languageId ed) (map fst languageMap) ->
   exists lang, analyzeCommand (Some ed) = AnalyzeCode (selectedText ed) (JStr lang) /\
     supported (JStr lang) = true /\
     (lang = "python" <-> languageId ed = "python")) /\
  (~ In (languageId ed) (map fst languageMap) ->
   object_prototype_lookup (languageId ed) = JUndefined ->
   analyzeCommand (Some ed) =
     ShowWarningMessage
       ("Language " ++ String Html.dq (languageId ed) ++ String Html.dq EmptyString ++
        " is not supported. Only Python and JavaScript are currently supported.")) /\
  (forall text, trim_is_empty text = true ->
   analyzeCommand (Some (mkEditor text (languageId ed))) =
     ShowErrorMessage "Please select some code to analyze.").
Proof.
  assert (Ht := trim_nonempty _ Hsel).
  split; [|split].
  - intros Hin. destruct ed as [text id]. simpl in Hin, Ht, Hsel |- *.
    unfold analyzeCommand. cbn [selectedText languageId]. rewrite Ht, Hsel. cbn [negb orb].
    repeat destruct Hin as [<-|Hin]; [exists "python" | exists "javascript" ..| contradiction];
      (split; [reflexivity|]); (split; [reflexivity|]); split; intros E; discriminate E || reflexivity.
  - intros Hnot Hproto. unfold analyzeCommand. rewrite Ht, Hsel, lookup_own, Hproto by exact Hnot.
    reflexivity.
  - intros text Hb. unfold analyzeCommand. cbn [selectedText]. rewrite Hb, orb_true_r. reflexivity.
Qed.

Lemma analyzeCommand_languages_witness :
  trim_is_empty (selectedText (mkEditor "eval(x)" "ruby")) = false /\
  analyzeCommand (Some (mkEditor "eval(x)" "ruby")) =
     ShowWarningMessage
       ("Language " ++ String Html.dq "ruby" ++ String Html.dq EmptyString ++
        " is not supported. Only Python and JavaScript are currently supported.").
Proof.
  assert (H : trim_is_empty (selectedText (mkEditor "eval(x)" "ruby")) = false) by reflexivity.
  split; [exact H|].
  apply (proj1 (proj2 (analyzeCommand_languages (mkEditor "eval(x)" "ruby") H)));
    [simpl; intuition discriminate | reflexivity].
Defined.

End CommandFacts.
